(** * scripts/finetune.py: run-mode dispatch, checkpoint resume, final save

    A shallow embedding of the orchestration script [scripts/finetune.py].
    The configuration object is a dictionary from option names to Python
    values; every heavyweight collaborator (tokenizer, model, trainer, the
    file system, the random generator, the terminal) is observed through the
    trace of calls the script issues, in program order. *)

From stdpp Require Import gmap strings list fin_maps pretty sorting.
From Stdlib Require Import ZArith Lia Ascii.

Local Open Scope Z_scope.
#[local] Set Warnings "-clear-no-such-hyp".

(** ** Python values held by the configuration *)

(** The values a YAML document or a command-line override can carry.
    Floating-point numbers are left out. *)
#[warnings="-register-all"] Inductive pyval : Type :=
  | VNone
  | VBool (b : bool)
  | VInt (z : Z)
  | VStr (s : string)
  | VList (l : list pyval)
  | VDict (d : list (string * pyval)).

(** [bool(v)], which is also the test an [if v:] performs. *)
Definition truthy (v : pyval) : bool :=
  match v with
  | VNone => false
  | VBool b => b
  | VInt z => negb (z =? 0)
  | VStr s => negb (String.eqb s "")
  | VList l => match l with [] => false | _ => true end
  | VDict d => match d with [] => false | _ => true end
  end.

(** [isinstance(v, bool)] *)
Definition isinstance_bool (v : pyval) : bool :=
  match v with VBool _ => true | _ => false end.

(** [v is None] *)
Definition is_None (v : pyval) : bool :=
  match v with VNone => true | _ => false end.

(** [v is True] *)
Definition is_True (v : pyval) : bool :=
  match v with VBool true => true | _ => false end.

(** [v == n] for an integer literal [n]; in Python [False == 0] and
    [True == 1] hold as well. *)
Definition py_eq_int (v : pyval) (n : Z) : bool :=
  match v with
  | VInt z => z =? n
  | VBool b => (if b then 1 else 0) =? n
  | _ => false
  end.

(** [v == s] for a string literal [s]. *)
Definition py_eq_str (v : pyval) (s : string) : bool :=
  match v with VStr t => String.eqb t s | _ => false end.

(** ** The configuration dictionary *)

(** [DictDefault] is a dictionary whose lookup of a missing key gives [None]
    instead of raising; [cfg.name] and [cfg["name"]] are the same lookup. *)
Abbreviation DictDefault := (gmap string pyval).

Definition cfg_get (cfg : DictDefault) (k : string) : pyval :=
  default VNone (cfg !! k).

(** [k in cfg.keys()] *)
Definition cfg_has (cfg : DictDefault) (k : string) : bool :=
  bool_decide (is_Some (cfg !! k)).

(** ** load_cfg: command-line overrides (lines 321-331) *)

(** One turn of the loop over [kwargs.items()]. *)
Definition override_step (cfg : DictDefault) (kv : string * pyval) : DictDefault :=
  let '(k, v) := kv in
  if cfg_has cfg k || negb (truthy (cfg_get cfg "strict")) then
    if isinstance_bool (cfg_get cfg k) then <[k := VBool (truthy v)]> cfg
    else <[k := v]> cfg
  else cfg.

(** The whole loop; [kwargs] is the keyword dictionary in its iteration
    order. The view [cfg.keys()] is live, so each turn tests the dictionary
    as the earlier turns left it. *)
Definition apply_overrides (cfg : DictDefault) (kwargs : list (string * pyval)) : DictDefault :=
  foldl override_step cfg kwargs.

(** The value an applied override stores. *)
Definition stored_value (existing v : pyval) : pyval :=
  if isinstance_bool existing then VBool (truthy v) else v.

(** ** Strings: [int(s)], [s.split("-")[-1]] *)

Definition is_space (a : ascii) : bool :=
  let n := nat_of_ascii a in
  ((9 <=? n) && (n <=? 13) || (28 <=? n) && (n <=? 32))%nat.

Definition is_digit (a : ascii) : bool :=
  let n := nat_of_ascii a in ((48 <=? n) && (n <=? 57))%nat.

Definition digit_value (a : ascii) : Z := Z.of_nat (nat_of_ascii a) - 48.

Fixpoint lstrip (s : string) : string :=
  match s with
  | String c s' => if is_space c then lstrip s' else s
  | EmptyString => EmptyString
  end.

Fixpoint string_rev_onto (s acc : string) : string :=
  match s with
  | String c s' => string_rev_onto s' (String c acc)
  | EmptyString => acc
  end.

Definition string_rev (s : string) : string := string_rev_onto s "".

(** [s.strip()] on an ASCII string *)
Definition strip (s : string) : string :=
  string_rev (lstrip (string_rev (lstrip s))).

(** The blanks [int()] skips around an ASCII numeral: tab to carriage
    return, and the space. *)
Definition is_c_space (a : ascii) : bool :=
  let n := nat_of_ascii a in
  ((9 <=? n) && (n <=? 13) || (n =? 32))%nat.

Fixpoint int_lstrip (s : string) : string :=
  match s with
  | String c s' => if is_c_space c then int_lstrip s' else s
  | EmptyString => EmptyString
  end.

Definition int_strip (s : string) : string :=
  string_rev (int_lstrip (string_rev (int_lstrip s))).

(** Decimal digits, a single underscore allowed between two digits. *)
Fixpoint parse_digits (acc : Z) (after_digit : bool) (s : string) : option Z :=
  match s with
  | EmptyString => if after_digit then Some acc else None
  | String c s' =>
      if is_digit c then parse_digits (10 * acc + digit_value c) true s'
      else if Ascii.eqb c "_" then
        (if after_digit then parse_digits acc false s' else None)
      else None
  end.

(** [int(s)] on an ASCII string: surrounding blanks, an optional sign,
    decimal digits. [None] stands for the [ValueError] Python raises. *)
Definition py_int (s : string) : option Z :=
  match int_strip s with
  | String "+" r => parse_digits 0 false r
  | String "-" r => Z.opp <$> parse_digits 0 false r
  | t => parse_digits 0 false t
  end.

Fixpoint contains_char (c : ascii) (s : string) : bool :=
  match s with
  | String d s' => Ascii.eqb c d || contains_char c s'
  | EmptyString => false
  end.

(** [s.split(sep)[-1]]: what follows the last [sep], or all of [s]. *)
Fixpoint split_last (sep : ascii) (s : string) : string :=
  match s with
  | String c s' =>
      if contains_char sep s' then split_last sep s'
      else if Ascii.eqb c sep then s' else s
  | EmptyString => EmptyString
  end.

(** ** Observable calls and the trace monad *)

Definition row := list Z.
Definition dataset := list row.

(** The calls the script makes on its collaborators. Logging is left out. *)
Inductive event : Type :=
  | Print (line : string)
  | Input (prompt : string)
  | LoadTokenizer
  | PrepareDataset
  | CheckDatasetLabels (selection : dataset)
  | LoadModel (inference : bool)
  | MergeAndUnload
  | ToFloat16
  | ModelSavePretrained (dir : pyval) (safe_serialization : bool)
  | TokenizerSavePretrained (dir : pyval)
  | PeftConfigSavePretrained (dir : pyval)
  | DoInference (prompter : option string)
  | SetupTrainer (train_dataset eval_dataset : dataset) (total_num_steps : Z)
  | SetUseCache (b : bool)
  | TorchCompile
  | SignalSIGINT
  | MakeDirs (dir : string)
  | TrainerTrain (resume_from_checkpoint : pyval) (sdp_kernel : bool)
  | BetterTransformerReverse
  | TrainerSaveModel (dir : pyval).

(** Exceptions; [sys.exit(n)] raises [SystemExit n]. Messages of library
    errors are abbreviated. *)
Inductive exn : Type :=
  | UnboundLocalError (name : string)
  | ValueError (msg : string)
  | TypeError
  | IndexError
  | EOFError
  | KeyboardInterrupt
  | SystemExit (code : Z).

(** How a piece of a function body ends: it falls through with a value,
    executes [return], or raises. *)
Inductive result (A : Type) : Type :=
  | Val (a : A)
  | Ret
  | Exc (e : exn).
Arguments Val {A} a.
Arguments Ret {A}.
Arguments Exc {A} e.

Definition M (A : Type) : Type := (list event * result A)%type.

#[global] Instance M_ret : MRet M := λ A a, ([], Val a).
#[global] Instance M_bind : MBind M := λ A B f m,
  match m.2 with
  | Val a => (m.1 ++ (f a).1, (f a).2)
  | Ret => (m.1, Ret)
  | Exc e => (m.1, Exc e)
  end.

Definition emit (e : event) : M unit := ([e], Val tt).
Definition raise {A} (e : exn) : M A := ([], Exc e).
Definition return_ {A} : M A := ([], Ret).
Definition when (b : bool) (m : M unit) : M unit := if b then m else mret tt.

(** Reading a local variable that may not have been assigned. *)
Definition get_local {A} (name : string) (v : option A) : M A :=
  match v with Some a => mret a | None => raise (UnboundLocalError name) end.

(** [Path(v)] *)
Definition Path (v : pyval) : M string :=
  match v with VStr s => mret s | _ => raise TypeError end.

(** [str(Path(d) / name)]; pathlib's normalisation of [d] is not modelled. *)
Definition path_join (d name : string) : string := d +:+ "/" +:+ name.

(** ** The environment of a run *)

(** What the script reads from outside: the answers of the collaborators
    whose code lies elsewhere. *)
Record World : Type := {
  (** [path.glob(pattern)], as path strings in the order the directory
      yields them *)
  glob : string → string → list string;
  (** [Path(d).is_dir()] *)
  is_dir : string → bool;
  (** the lines [input()] will read, then end of input *)
  stdin : list string;
  (** [prepare_dataset(cfg, tokenizer)] *)
  prepared : dataset * dataset * Z;
  (** the raw randomness behind the [k]-th call of [random.randrange] *)
  rand : nat → Z;
  (** whether the second component of [load_model(...)] is truthy *)
  peft_config : bool;
  (** [torch.__version__ >= "2" and sys.platform != "win32"] *)
  torch_compiles : bool
}.

(** [random.randrange(start, stop)]: some integer of [start, stop), chosen
    by the raw randomness [r]; an empty range raises. *)
Definition randrange (start stop r : Z) : M Z :=
  if 0 <? stop - start then mret (start + r mod (stop - start))
  else raise (ValueError "empty range for randrange()").

(** [len(ds)] *)
Definition len {A} (l : list A) : Z := Z.of_nat (length l).

(** [ds.select(indices)]: a new dataset holding the rows at [indices]. *)
Definition select (ds : dataset) (indices : list Z) : M dataset :=
  match mapM (λ i, if 0 <=? i then ds !! Z.to_nat i else None) indices with
  | Some rows => mret rows
  | None => raise IndexError
  end.

(** ** choose_config (lines 145-172) *)

(** The call [input("Enter the number of your choice: ")]. *)
Definition choice_prompt : event := Input "Enter the number of your choice: ".

Definition no_yaml_message : string :=
  "No YAML config files found in the specified directory. Are you using a .yml extension?".

(** The [while chosen_file is None] loop, by recursion on the lines still to
    be read; at end of input [input()] raises [EOFError]. *)
Fixpoint choose_loop (yaml_files : list string) (inputs : list string) : M string :=
  match inputs with
  | [] => emit choice_prompt;; raise EOFError
  | line :: inputs' =>
      emit choice_prompt;;
      match py_int line with
      | Some choice =>
          if (1 <=? choice) && (choice <=? len yaml_files) then
            match yaml_files !! Z.to_nat (choice - 1) with
            | Some file => mret file
            | None => raise IndexError
            end
          else
            emit (Print "Invalid choice. Please choose a number from the list.");;
            choose_loop yaml_files inputs'
      | None =>
          emit (Print "Invalid input. Please enter a number.");;
          choose_loop yaml_files inputs'
      end
  end.

(** [for idx, file in enumerate(yaml_files): print(f"{idx + 1}. {file}")] *)
Fixpoint print_options (idx : Z) (files : list string) : M unit :=
  match files with
  | [] => mret tt
  | file :: files' =>
      emit (Print (pretty (idx + 1) +:+ ". " +:+ file));;
      print_options (idx + 1) files'
  end.

Definition choose_config (w : World) (path : string) : M string :=
  let yaml_files := glob w path "*.yml" in
  match yaml_files with
  | [] => raise (ValueError no_yaml_message)
  | [file] =>
      emit (Print ("Using default YAML file '" +:+ file +:+ "'"));;
      mret file
  | _ =>
      emit (Print "Choose a YAML file:");;
      print_options 0 yaml_files;;
      choose_loop yaml_files (stdin w)
  end.

(** ** TrainerCliArgs (lines 43-54) *)

Record TrainerCliArgs : Type := {
  debug : bool;
  inference : bool;
  merge_lora : bool;
  prepare_ds_only : bool;
  prompter : option string;
  shard : bool
}.

(** The dataclass defaults: every flag off. *)
Definition default_cli_args : TrainerCliArgs :=
  {| debug := false; inference := false; merge_lora := false;
     prepare_ds_only := false; prompter := None; shard := false |}.

(** ** train (lines 179-311) *)

(** [[random.randrange(0, len(train_dataset) - 1) for _ in range(5)]] *)
Definition debug_indices (w : World) (train_dataset : dataset) : M (list Z) :=
  mapM (λ k, randrange 0 (len train_dataset - 1) (rand w k)) (seq 0 5).

(** Lines 193-200; [ds] is the local [train_dataset, eval_dataset,
    total_num_steps], unassigned when line 191 was skipped. *)
Definition check_labels (w : World) (ds : option (dataset * dataset * Z)) : M unit :=
  '(train_dataset, _, _) ← get_local "train_dataset" ds;
  indices ← debug_indices w train_dataset;
  selection ← select train_dataset indices;
  emit (CheckDatasetLabels selection).

(** Lines 213-224, the body of the merge branch. *)
Definition merge_branch (cfg : DictDefault) (safe_serialization : bool) : M unit :=
  emit MergeAndUnload;;
  emit ToFloat16;;
  when (py_eq_int (cfg_get cfg "local_rank") 0) (
    d ← Path (cfg_get cfg "output_dir");
    emit (ModelSavePretrained (VStr (path_join d "merged")) safe_serialization);;
    d' ← Path (cfg_get cfg "output_dir");
    emit (TokenizerSavePretrained (VStr (path_join d' "merged"))));;
  return_.

(** Stable insertion by ascending key, as [sorted(..., key=...)] orders. *)
Fixpoint insert_by_key (x : Z * string) (l : list (Z * string)) : list (Z * string) :=
  match l with
  | [] => [x]
  | y :: l' => if x.1 <=? y.1 then x :: l else y :: insert_by_key x l'
  end.

Definition sort_by_key (l : list (Z * string)) : list (Z * string) :=
  foldr insert_by_key [] l.

(** The order of the keys. *)
Definition key_le (a b : Z * string) : Prop := a.1 ≤ b.1.

(** [lambda path: int(path.split("-")[-1])] *)
Definition checkpoint_step (path : string) : option Z :=
  py_int (split_last "-" path).

(** [sorted(possible_checkpoints, key=...)]: the keys are computed first,
    and the first one that is no integer raises [ValueError]. *)
Definition sorted_checkpoints (paths : list string) : M (list string) :=
  match mapM (λ p, (λ k, (k, p)) <$> checkpoint_step p) paths with
  | Some keyed => mret ((sort_by_key keyed).*2)
  | None => raise (ValueError "invalid literal for int() with base 10")
  end.

(** Lines 236-248; gives the configuration with [resume_from_checkpoint]
    possibly assigned. *)
Definition auto_resume (w : World) (cfg : DictDefault) : M DictDefault :=
  if is_None (cfg_get cfg "resume_from_checkpoint")
     && truthy (cfg_get cfg "auto_resume_from_checkpoints") then
    d ← Path (cfg_get cfg "output_dir");
    let possible_checkpoints := glob w d "checkpoint-*" in
    if 0 <? len possible_checkpoints then
      sorted_paths ← sorted_checkpoints possible_checkpoints;
      match last sorted_paths with
      | Some p => mret (<["resume_from_checkpoint" := VStr p]> cfg)
      | None => raise IndexError
      end
    else mret cfg
  else mret cfg.

(** Lines 269-273, the body of the SIGINT handler. *)
Definition terminate_handler (cfg : DictDefault) (safe_serialization : bool) : M unit :=
  when (truthy (cfg_get cfg "flash_optimum")) (emit BetterTransformerReverse);;
  emit (ModelSavePretrained (cfg_get cfg "output_dir") safe_serialization);;
  raise (SystemExit 0).

(** Lines 303-311, the save at the normal end of training. *)
Definition final_save (cfg : DictDefault) (safe_serialization : bool) : M unit :=
  if truthy (cfg_get cfg "fsdp") then
    emit (TrainerSaveModel (cfg_get cfg "output_dir"))
  else
    when (py_eq_int (cfg_get cfg "local_rank") 0) (
      when (truthy (cfg_get cfg "flash_optimum")) (emit BetterTransformerReverse);;
      emit (ModelSavePretrained (cfg_get cfg "output_dir") safe_serialization)).

(** [cfg.adapter == "lora" and not (cfg.load_in_4bit or cfg.load_in_8bit)] *)
Definition plain_lora (cfg : DictDefault) : bool :=
  py_eq_str (cfg_get cfg "adapter") "lora"
  && negb (truthy (cfg_get cfg "load_in_4bit") || truthy (cfg_get cfg "load_in_8bit")).

(** Lines 296-311, what follows the return of [trainer.train]. *)
Definition finalize (cfg : DictDefault) (safe_serialization : bool) : M unit :=
  when (truthy (cfg_get cfg "relora_steps")) (
    if plain_lora cfg then emit MergeAndUnload else return_);;
  final_save cfg safe_serialization.

(** Lines 236-285: the train branch up to the blocking call of
    [trainer.train]; gives the configuration as the resume step left it. *)
Definition train_setup (w : World) (cfg : DictDefault)
    (ds : option (dataset * dataset * Z)) : M DictDefault :=
  cfg ← auto_resume w cfg;
  '(train_dataset, eval_dataset, total_num_steps) ← get_local "train_dataset" ds;
  emit (SetupTrainer train_dataset eval_dataset total_num_steps);;
  emit (SetUseCache false);;
  when (torch_compiles w) (emit TorchCompile);;
  when (peft_config w) (emit (PeftConfigSavePretrained (cfg_get cfg "output_dir")));;
  when (py_eq_int (cfg_get cfg "local_rank") 0) (emit SignalSIGINT);;
  d ← Path (cfg_get cfg "output_dir");
  when (negb (is_dir w d)) (emit (MakeDirs d));;
  emit (TokenizerSavePretrained (cfg_get cfg "output_dir"));;
  mret cfg.

(** Lines 286-292, entering [trainer.train]. *)
Definition fit (cfg : DictDefault) : M unit :=
  emit (TrainerTrain (cfg_get cfg "resume_from_checkpoint")
                     (truthy (cfg_get cfg "flash_optimum"))).

(** Lines 184-208: tokenizer, dataset, label inspection, prepare-only exit,
    model loading. Gives the dataset locals. *)
Definition preamble (w : World) (cfg : DictDefault) (cli_args : TrainerCliArgs)
    : M (option (dataset * dataset * Z)) :=
  emit LoadTokenizer;;
  ds ← (if negb (shard cli_args || merge_lora cli_args || inference cli_args)
        then emit PrepareDataset;; mret (Some (prepared w))
        else mret None);
  when (debug cli_args || truthy (cfg_get cfg "debug")) (check_labels w ds);;
  when (prepare_ds_only cli_args) return_;;
  emit (LoadModel (inference cli_args));;
  mret ds.

(** Line 210 *)
Definition safe_serialization (cfg : DictDefault) : bool :=
  is_True (cfg_get cfg "save_safetensors").

(** Lines 226-234: the inference and shard branches, each ending in
    [return]. *)
Definition lower_branches (cfg : DictDefault) (cli_args : TrainerCliArgs) : M unit :=
  when (inference cli_args) (emit (DoInference (prompter cli_args));; return_);;
  when (shard cli_args) (
    emit (ModelSavePretrained (cfg_get cfg "output_dir") (safe_serialization cfg));;
    return_).

(** Lines 212-234: the three flag-selected branches. *)
Definition branches (cfg : DictDefault) (cli_args : TrainerCliArgs) : M unit :=
  when (merge_lora cli_args && negb (is_None (cfg_get cfg "adapter")))
    (merge_branch cfg (safe_serialization cfg));;
  lower_branches cfg cli_args.

(** Lines 184-292: the function up to the moment [trainer.train] blocks. *)
Definition run_to_fit (w : World) (cfg : DictDefault) (cli_args : TrainerCliArgs)
    : M DictDefault :=
  ds ← preamble w cfg cli_args;
  branches cfg cli_args;;
  cfg' ← train_setup w cfg ds;
  fit cfg';;
  mret cfg'.

(** The whole function, when [trainer.train] returns normally. *)
Definition train (w : World) (cfg : DictDefault) (cli_args : TrainerCliArgs) : M unit :=
  cfg' ← run_to_fit w cfg cli_args;
  finalize cfg' (safe_serialization cfg).

(** ** Interruption while [trainer.train] blocks *)

Definition is_SignalSIGINT (e : event) : bool :=
  match e with SignalSIGINT => true | _ => false end.

(** Whether [signal.signal(signal.SIGINT, ...)] has been called. *)
Definition handler_installed (t : list event) : bool := existsb is_SignalSIGINT t.

(** Delivery of SIGINT to a process whose calls so far are [t]: the
    installed handler runs, or else Python's default handler raises
    [KeyboardInterrupt]. *)
Definition deliver_sigint (t : list event) (cfg : DictDefault)
    (safe_serialization : bool) : M unit :=
  if handler_installed t then terminate_handler cfg safe_serialization
  else raise KeyboardInterrupt.

(** A run that receives SIGINT once, during [trainer.train]. *)
Definition train_interrupted (w : World) (cfg : DictDefault) (cli_args : TrainerCliArgs)
    : M unit :=
  let m := run_to_fit w cfg cli_args in
  cfg' ← m;
  deliver_sigint m.1 cfg' (safe_serialization cfg).

(** ** The run modes as the specification names them *)

Inductive mode : Type := PREPARE_ONLY | MERGE_LORA | INFERENCE | RESHARD | TRAIN.

(** The stated priority order: prepare_ds_only, merge_lora with an adapter
    present, inference, shard, else train. *)
Definition spec_select_mode (cfg : DictDefault) (cli_args : TrainerCliArgs) : mode :=
  if prepare_ds_only cli_args then PREPARE_ONLY
  else if merge_lora cli_args && negb (is_None (cfg_get cfg "adapter")) then MERGE_LORA
  else if inference cli_args then INFERENCE
  else if shard cli_args then RESHARD
  else TRAIN.

(** The terminal sequence of each mode, once the model is loaded. *)
Definition mode_body (w : World) (cfg : DictDefault) (cli_args : TrainerCliArgs)
    (ds : option (dataset * dataset * Z)) (m : mode) : M unit :=
  match m with
  | PREPARE_ONLY => return_
  | MERGE_LORA => merge_branch cfg (safe_serialization cfg)
  | INFERENCE => emit (DoInference (prompter cli_args));; return_
  | RESHARD =>
      emit (ModelSavePretrained (cfg_get cfg "output_dir") (safe_serialization cfg));;
      return_
  | TRAIN =>
      cfg' ← train_setup w cfg ds;
      fit cfg';;
      finalize cfg' (safe_serialization cfg)
  end.

(** Writes into the output directory: tokenizer files, adapter
    configuration, model weights. *)
Definition is_write (e : event) : bool :=
  match e with
  | ModelSavePretrained _ _ | TokenizerSavePretrained _
  | PeftConfigSavePretrained _ | TrainerSaveModel _ | MakeDirs _ => true
  | _ => false
  end.

(** Serialisations of the model. *)
Definition is_model_save (e : event) : bool :=
  match e with
  | ModelSavePretrained _ _ | TrainerSaveModel _ => true
  | _ => false
  end.



(** The calls made before the branches are reached. *)
Definition is_preamble_event (e : event) : bool :=
  match e with
  | LoadTokenizer | PrepareDataset | CheckDatasetLabels _ | LoadModel _ => true
  | _ => false
  end.

(** ** Concrete runs used in the examples *)

Definition rows3 : dataset := [[1; 2]; [3; 4]; [5; 6]].

Definition world0 : World :=
  {| glob := λ d pat,
       if String.eqb pat "checkpoint-*" then
         [path_join d "checkpoint-5"; path_join d "checkpoint-20"; path_join d "checkpoint-3"]
       else if String.eqb d "examples" then ["examples/a.yml"; "examples/b.yml"]
       else [];
     is_dir := λ _, true;
     stdin := ["x"; "7"; "2"];
     prepared := (rows3, [[7; 8]], 10);
     rand := λ k, Z.of_nat k + 3;
     peft_config := false;
     torch_compiles := false |}.

Definition cfg0 : DictDefault :=
  {[ "output_dir" := VStr "out"; "local_rank" := VInt 0;
     "strict" := VBool true; "flash_optimum" := VBool true;
     "fsdp" := VList [VStr "full_shard"]; "save_safetensors" := VBool true ]}.

(** [cfg0] on a non-coordinating process, without sharding, with
    auto-resume switched on. *)
Definition cfg1 : DictDefault :=
  <["auto_resume_from_checkpoints" := VBool true]>
    (<["local_rank" := VInt 1]> (delete "fsdp" cfg0)).

(** ** Counting calls *)

Definition is_Input (e : event) : bool :=
  match e with Input _ => true | _ => false end.

(** How many times [input()] was called. *)
Definition prompts (t : list event) : nat := length (List.filter is_Input t).

(** How many times the model was serialised. *)
Definition model_saves (t : list event) : nat :=
  length (List.filter is_model_save t).

(** An answer the selection loop accepts: an integer of [1, len(yaml_files)]. *)
Definition valid_choice (yaml_files : list string) (line : string) : bool :=
  match py_int line with
  | Some choice => (1 <=? choice) && (choice <=? len yaml_files)
  | None => false
  end.

(** The calls a run without dataset can make: those of the merge, inference
    and shard modes and of model loading. *)
Definition is_non_training_event (e : event) : bool :=
  match e with
  | LoadTokenizer | LoadModel _ | MergeAndUnload | ToFloat16
  | ModelSavePretrained _ _ | TokenizerSavePretrained _ | DoInference _ => true
  | _ => false
  end.

(** ** check_not_in (lines 175-176) *)

(** The second argument of [check_not_in]: a list of strings, or a
    dictionary, for which [in] tests the keys. *)
Inductive container : Type :=
  | InList (l : list string)
  | InDict (d : DictDefault).

(** [el in c] *)
Definition py_in (el : string) (c : container) : bool :=
  match c with
  | InList l => bool_decide (el ∈ l)
  | InDict d => cfg_has d el
  end.

(** [not any(el in list2 for el in list1)] *)
Definition check_not_in (list1 : list string) (list2 : container) : bool :=
  negb (existsb (λ el, py_in el list2) list1).

(** ** load_cfg: the llama flag (lines 333-341) *)

(** [s.lower()] on ASCII letters. *)
Definition lower_char (c : ascii) : ascii :=
  let n := nat_of_ascii c in
  if ((65 <=? n) && (n <=? 90))%nat then ascii_of_nat (n + 32) else c.

Fixpoint lower (s : string) : string :=
  match s with
  | String c s' => String (lower_char c) (lower s')
  | EmptyString => EmptyString
  end.

(** [sub in s] for two strings. *)
Fixpoint contains_substring (sub s : string) : bool :=
  String.prefix sub s
  || match s with
     | String _ s' => contains_substring sub s'
     | EmptyString => false
     end.

(** What the derivation can raise. *)
Inductive derive_error : Type :=
  | NotIterable      (* TypeError: argument of type ... is not iterable *)
  | NoLowerAttribute (* AttributeError: ... object has no attribute 'lower' *)
  | NotCallable      (* TypeError: 'NoneType' object is not callable *).

(** ["llama" in v]: substring of a string, element of a list, key of a
    dictionary; other values are not iterable. *)
Definition llama_in (v : pyval) : derive_error + bool :=
  match v with
  | VStr s => inr (contains_substring "llama" s)
  | VList l => inr (existsb (λ x, py_eq_str x "llama") l)
  | VDict d => inr (existsb (λ kv, String.eqb kv.1 "llama") d)
  | _ => inl NotIterable
  end.

(** [hasattr(model_config, "model_type") and model_config.model_type == "llama"];
    [model_type] is the attribute when the loaded model configuration has
    one. *)
Definition config_says_llama (model_type : option pyval) : bool :=
  match model_type with
  | Some v => py_eq_str v "llama"
  | None => false
  end.

(** [cfg.model_type and "llama" in cfg.model_type.lower()]: a falsy
    [model_type] is the value of the conjunction; only strings have
    [lower]; on a nested dictionary [.lower] is a lookup of a missing key,
    which gives [None], and calling it fails. *)
Definition model_type_says_llama (cfg : DictDefault) : derive_error + pyval :=
  let v := cfg_get cfg "model_type" in
  if truthy v then
    match v with
    | VStr s => inr (VBool (contains_substring "llama" (lower s)))
    | VDict _ => inl NotCallable
    | _ => inl NoLowerAttribute
    end
  else inr v.

(** The value assigned to [cfg.is_llama_derived_model]: the first truthy
    operand of the chain of [or], or else the last operand; operands after
    a truthy one are not evaluated. *)
Definition derive_llama (model_type : option pyval) (cfg : DictDefault)
    : derive_error + pyval :=
  if config_says_llama model_type then inr (VBool true)
  else if truthy (cfg_get cfg "is_llama_derived_model")
  then inr (cfg_get cfg "is_llama_derived_model")
  else
    match llama_in (cfg_get cfg "base_model") with
    | inl e => inl e
    | inr true => inr (VBool true)
    | inr false => model_type_says_llama cfg
    end.

(** Lines 336-341: the assignment. *)
Definition set_llama_flag (model_type : option pyval) (cfg : DictDefault)
    : derive_error + DictDefault :=
  match derive_llama model_type cfg with
  | inl e => inl e
  | inr v => inr (<["is_llama_derived_model" := v]> cfg)
  end.

(** ** get_multi_line_input and do_inference (lines 67-142) *)

(** The calls of the inference loop on tokenizer, model and terminal. *)
Inductive icall : Type :=
  | AddSpecialTokens (token symbol : string)
  | GetPrompter (name : string)
  | SetModelMemId
  | SetMemCacheArgs (max_seq_len mem_freq top_k : Z)
  | ModelTo (device : pyval)
  | Say (line : string)
  | Tokenize (prompt : string)
  | ModelEval
  | Generate (prompt : string) (max_new_tokens : Z)
  | SayDecoded (prompt : string).

Inductive inference_error : Type :=
  | TokensNotIterable              (* TypeError of [token in cfg.special_tokens] *)
  | NoSuchPrompter (name : string) (* AttributeError of [getattr] *).

(** What the operator and the prompters module provide: the lines of each
    successive read of standard input up to its end, and for a class name
    of [axolotl.prompters] the prompt its [build_prompt] yields first. *)
Record Terminal : Type := {
  sessions : list (list string);
  prompters : string → option (string → string)
}.

(** [needle in v] for a string [needle]. *)
Definition py_str_in (needle : string) (v : pyval) : option bool :=
  match v with
  | VStr s => Some (contains_substring needle s)
  | VList l => Some (existsb (λ x, py_eq_str x needle) l)
  | VDict d => Some (existsb (λ kv, String.eqb kv.1 needle) d)
  | _ => None
  end.

(** Lines 69-73: the lines read, concatenated. *)
Definition read_instruction (lines : list string) : string :=
  foldl (λ instruction line, instruction +:+ line) "" lines.

Definition default_tokens : list (string * string) :=
  [("unk_token", "<unk>"); ("bos_token", "<s>"); ("eos_token", "</s>")].

(** Lines 81-84 *)
Fixpoint add_default_tokens (cfg : DictDefault) (tokens : list (string * string))
    : list icall * option inference_error :=
  match tokens with
  | [] => ([], None)
  | (token, symbol) :: tokens' =>
      let special := cfg_get cfg "special_tokens" in
      match (if truthy special then py_str_in token special else Some false) with
      | None => ([], Some TokensNotIterable)
      | Some configured =>
          let rest := add_default_tokens cfg tokens' in
          ((if configured then [] else [AddSpecialTokens token symbol]) ++ rest.1,
           rest.2)
      end
  end.

Fixpoint lstrip_by (f : ascii → bool) (s : string) : string :=
  match s with
  | String c s' => if f c then lstrip_by f s' else s
  | EmptyString => EmptyString
  end.

(** [s.strip(chars)] *)
Definition strip_by (f : ascii → bool) (s : string) : string :=
  string_rev (lstrip_by f (string_rev (lstrip_by f s))).

Definition is_newline (c : ascii) : bool := Ascii.eqb c "010".

Definition rule (n : nat) : string := String.string_of_list_ascii (replicate n "="%char).

Definition instruction_prompt : string :=
  "Give me an instruction (Ctrl + D to finish): ".

(** Lines 102-142: the loop, one turn per read of standard input; a read
    that yields no text ends it. *)
Fixpoint inference_loop (build : option (string → string))
    (reads : list (list string)) : list icall :=
  match reads with
  | [] => [Say (rule 80); Say instruction_prompt]
  | lines :: reads' =>
      let instruction := read_instruction lines in
      Say (rule 80) :: Say instruction_prompt ::
      if String.eqb instruction "" then []
      else
        let prompt :=
          match build with
          | Some build_prompt => build_prompt (strip_by is_newline instruction)
          | None => strip instruction
          end in
        [Tokenize prompt; Say (rule 40); ModelEval; Generate prompt 1024;
         Say (rule 40); SayDecoded prompt]
          ++ inference_loop build reads'
  end.

(** Lines 77-78 and 87: the prompter name that counts. *)
Definition effective_prompter (prompter : option string) : option string :=
  match prompter with
  | Some name => if String.eqb name "None" || String.eqb name "" then None else Some name
  | None => None
  end.

(** Lines 76-142 *)
Definition do_inference (term : Terminal) (cfg : DictDefault) (prompter : option string)
    : list icall * option inference_error :=
  let tokens := add_default_tokens cfg default_tokens in
  match tokens.2 with
  | Some e => (tokens.1, Some e)
  | None =>
      let after name_calls build :=
        (tokens.1 ++ name_calls
           ++ (if truthy (cfg_get cfg "landmark_attention")
               then [SetModelMemId; SetMemCacheArgs 255 50 5] else [])
           ++ [ModelTo (cfg_get cfg "device")]
           ++ inference_loop build (sessions term), None) in
      match effective_prompter prompter with
      | None => after [] None
      | Some name =>
          match prompters term name with
          | Some build_prompt => after [GetPrompter name] (Some build_prompt)
          | None => (tokens.1 ++ [GetPrompter name], Some (NoSuchPrompter name))
          end
      end
  end.

Definition is_Generate (c : icall) : bool :=
  match c with Generate _ _ => true | _ => false end.

(** How many generations were run. *)
Definition generations (t : list icall) : nat := length (List.filter is_Generate t).

(** ** Decimal numerals *)

(** Strings made of decimal digits only. *)
Fixpoint all_digits (s : string) : bool :=
  match s with
  | String c s' => is_digit c && all_digits s'
  | EmptyString => true
  end.

(** ** Where the models of [int()] and of path joining are exact *)

Fixpoint is_ascii (s : string) : bool :=
  match s with
  | String c s' => (nat_of_ascii c <? 128)%nat && is_ascii s'
  | EmptyString => true
  end.

(** The default of [sys.get_int_max_str_digits()]. *)
Definition int_max_str_digits : nat := 4300.

(** The strings on which [py_int] is [int()]: ASCII text, which leaves
    aside the decimal digits and blanks of other scripts, no longer than the
    limit [int()] puts on the number of digits. *)
Definition int_exact (s : string) : bool :=
  is_ascii s && (String.length s <=? int_max_str_digits)%nat.

(** [s.split(sep)] *)
Fixpoint split_on (sep : ascii) (s : string) : list string :=
  match s with
  | EmptyString => [EmptyString]
  | String c s' =>
      if Ascii.eqb c sep then EmptyString :: split_on sep s'
      else match split_on sep s' with
           | part :: parts => String c part :: parts
           | [] => [String c EmptyString]
           end
  end.

(** A path component that [Path] keeps as it is. *)
Definition proper_component (c : string) : bool :=
  negb (String.eqb c "") && negb (String.eqb c ".").

(** The POSIX directory names that [Path] leaves unchanged and to which
    [Path(d) / name] only appends: components separated by single slashes,
    none of them empty or ".", after at most one leading slash. For these
    [path_join d name] is [str(Path(d) / name)]. *)
Definition normal_dir (d : string) : bool :=
  match split_on "/" d with
  | EmptyString :: ((_ :: _) as below_root) => forallb proper_component below_root
  | parts => forallb proper_component parts
  end.

(** An output directory with a checkpoint entry whose suffix is no number. *)
Definition world_malformed : World :=
  {| glob := λ d pat,
       if String.eqb pat "checkpoint-*" then
         [path_join d "checkpoint-5"; path_join d "checkpoint-final"]
       else [];
     is_dir := λ _, true;
     stdin := [];
     prepared := (rows3, [[7; 8]], 10);
     rand := λ k, Z.of_nat k;
     peft_config := false;
     torch_compiles := false |}.

(** * Properties *)

(** ** The trace monad *)

Lemma bind_Val {A B} (m : M A) (f : A → M B) t a :
  m = (t, Val a) → m ≫= f = (t ++ (f a).1, (f a).2).
Proof. by intros ->. Qed.

Lemma bind_Ret {A B} (m : M A) (f : A → M B) t :
  m = (t, Ret) → m ≫= f = (t, Ret).
Proof. by intros ->. Qed.

Lemma bind_Exc {A B} (m : M A) (f : A → M B) t e :
  m = (t, Exc e) → m ≫= f = (t, Exc e).
Proof. by intros ->. Qed.

Lemma bind_mret {A B} (a : A) (f : A → M B) : mret a ≫= f = f a.
Proof. unfold mbind, M_bind. cbn. by destruct (f a). Qed.

Lemma bind_pure {A B} (a : A) (f : A → M B) : ([], Val a) ≫= f = f a.
Proof. apply bind_mret. Qed.

Lemma bind_emit {B} (e : event) (f : unit → M B) :
  emit e ≫= f = (e :: (f tt).1, (f tt).2).
Proof. done. Qed.

(** Unfolds the monad operations as far as the calls are known. *)
Tactic Notation "msimpl" :=
  cbn [mbind M_bind mret M_ret emit raise return_ when get_local Path
       fst snd app negb andb orb].
Tactic Notation "msimpl" "in" hyp(H) :=
  cbn [mbind M_bind mret M_ret emit raise return_ when get_local Path
       fst snd app negb andb orb] in H.

(** A property of every call of [m] and of every continuation holds of
    every call of the sequence. *)
Lemma bind_Forall {A B} (P : event → Prop) (m : M A) (f : A → M B) :
  Forall P m.1 → (∀ a, m.2 = Val a → Forall P (f a).1) → Forall P (m ≫= f).1.
Proof.
  destruct m as [t [a| |e]]; cbn; intros Ht Hf; try done.
  apply Forall_app. split; [done|]. by apply Hf.
Qed.

Lemma when_Forall (P : event → Prop) b (m : M unit) :
  (b = true → Forall P m.1) → Forall P (when b m).1.
Proof. destruct b; cbn; [auto | constructor]. Qed.

(** ** load_cfg: overrides *)

Lemma override_step_other cfg k v j :
  j ≠ k → override_step cfg (k, v) !! j = cfg !! j.
Proof.
  intros Hne. unfold override_step.
  destruct (cfg_has cfg k || negb (truthy (cfg_get cfg "strict"))); [|done].
  destruct (isinstance_bool (cfg_get cfg k)); by rewrite lookup_insert_ne.
Qed.

Lemma apply_overrides_other kwargs : ∀ cfg j,
  j ∉ kwargs.*1 → apply_overrides cfg kwargs !! j = cfg !! j.
Proof.
  induction kwargs as [|[k v] kwargs IH]; intros cfg j Hj; [done|].
  cbn in Hj. apply not_elem_of_cons in Hj as [Hne Hj].
  unfold apply_overrides in *. cbn [foldl].
  rewrite IH by done. by apply override_step_other.
Qed.

Lemma apply_overrides_app cfg pre post :
  apply_overrides cfg (pre ++ post) = apply_overrides (apply_overrides cfg pre) post.
Proof. unfold apply_overrides. by rewrite foldl_app. Qed.

Lemma override_step_self cfg k v :
  override_step cfg (k, v) !! k =
    if cfg_has cfg k || negb (truthy (cfg_get cfg "strict"))
    then Some (stored_value (cfg_get cfg k) v) else cfg !! k.
Proof.
  unfold override_step, stored_value.
  destruct (cfg_has cfg k || negb (truthy (cfg_get cfg "strict"))); [|done].
  destruct (isinstance_bool (cfg_get cfg k)); by rewrite lookup_insert_eq.
Qed.

(** C8. For the override [k=v] met after the overrides [pre] (the keys of a
    keyword dictionary being pairwise distinct): it is applied exactly when
    [k] is a key of the loaded source or the configuration, as the earlier
    overrides left it, is not strict. When applied, the configuration ends
    with [bool(v)] under [k] if the loaded value was a boolean and with [v]
    otherwise; when not applied, that turn changes nothing and [k] stays
    absent. *)
Theorem override_applied_iff (src : DictDefault) (pre post : list (string * pyval))
    (k : string) (v : pyval) :
  NoDup ((pre ++ (k, v) :: post).*1) →
  let c := apply_overrides src pre in
  let final := apply_overrides src (pre ++ (k, v) :: post) in
  ((is_Some (src !! k) ∨ truthy (cfg_get c "strict") = false) →
     final !! k = Some (if isinstance_bool (cfg_get src k) then VBool (truthy v) else v))
  ∧ (¬ (is_Some (src !! k) ∨ truthy (cfg_get c "strict") = false) →
     override_step c (k, v) = c ∧ final !! k = None).
Proof.
  intros Hnd c final. subst c final.
  rewrite fmap_app, fmap_cons in Hnd. cbn in Hnd.
  apply NoDup_app in Hnd as (_ & Hpre & Hpost).
  apply NoDup_cons in Hpost as [Hpost _].
  assert (Hk : k ∉ pre.*1) by (intros Hin; apply (Hpre k Hin); left).
  assert (Hc : apply_overrides src pre !! k = src !! k)
    by (by apply apply_overrides_other).
  rewrite apply_overrides_app.
  change (apply_overrides (apply_overrides src pre) ((k, v) :: post))
    with (apply_overrides (override_step (apply_overrides src pre) (k, v)) post).
  rewrite apply_overrides_other by done.
  rewrite override_step_self.
  assert (Hhas : cfg_has (apply_overrides src pre) k = bool_decide (is_Some (src !! k)))
    by (unfold cfg_has; by rewrite Hc).
  assert (Hget : cfg_get (apply_overrides src pre) k = cfg_get src k)
    by (unfold cfg_get; by rewrite Hc).
  split.
  - intros Happ. rewrite Hhas, Hget.
    destruct Happ as [Hs | Hstrict].
    + by rewrite bool_decide_eq_true_2.
    + rewrite Hstrict. cbn. by rewrite orb_true_r.
  - intros Hno.
    assert (Hs : ¬ is_Some (src !! k)) by tauto.
    assert (Hst : truthy (cfg_get (apply_overrides src pre) "strict") = true)
      by (destruct (truthy _); [done | tauto]).
    unfold override_step. rewrite Hhas, Hst, bool_decide_eq_false_2 by done. cbn.
    split; [done|]. rewrite Hc. by apply eq_None_not_Some.
Qed.

Lemma override_applied_iff_witness :
  apply_overrides cfg0 [("strict", VInt 0); ("seed", VInt 42)] !! "seed"
    = Some (VInt 42)
  ∧ apply_overrides cfg0 [("seed", VInt 42); ("strict", VInt 0)] !! "seed" = None.
Proof.
  split.
  - apply (override_applied_iff cfg0 [("strict", VInt 0)] [] "seed" (VInt 42)).
    + apply (bool_decide_unpack _). vm_compute. exact I.
    + right. vm_compute. reflexivity.
  - apply (override_applied_iff cfg0 [] [("strict", VInt 0)] "seed" (VInt 42)).
    + apply (bool_decide_unpack _). vm_compute. exact I.
    + vm_compute. intros [[x Hx] | H]; discriminate.
Defined.

(** ** Checkpoint discovery *)

Lemma insert_by_key_Permutation x l : insert_by_key x l ≡ₚ x :: l.
Proof.
  induction l as [|y l IH]; cbn; [done|].
  destruct (x.1 <=? y.1); [done|].
  rewrite IH. apply Permutation_swap.
Qed.

Lemma sort_by_key_Permutation l : sort_by_key l ≡ₚ l.
Proof.
  induction l as [|x l IH]; cbn; [done|].
  fold (sort_by_key l). by rewrite insert_by_key_Permutation, IH.
Qed.

Lemma insert_by_key_sorted x l :
  StronglySorted key_le l → StronglySorted key_le (insert_by_key x l).
Proof.
  induction 1 as [|y l Hs IH Hy]; cbn.
  - repeat constructor.
  - destruct (x.1 <=? y.1) eqn:Hxy.
    + apply Z.leb_le in Hxy. constructor; [by constructor|].
      constructor; [done|].
      eapply Forall_impl; [exact Hy|]. unfold key_le. intros; lia.
    + apply Z.leb_gt in Hxy. constructor; [done|].
      rewrite insert_by_key_Permutation. constructor; [|done].
      unfold key_le. lia.
Qed.

Lemma sort_by_key_sorted l : StronglySorted key_le (sort_by_key l).
Proof.
  induction l as [|x l IH]; cbn; [constructor|].
  by apply insert_by_key_sorted.
Qed.

(** The last element of a list in ascending key order carries a greatest
    key. *)
Lemma sorted_last_greatest l p :
  StronglySorted key_le l → last l = Some p → Forall (λ q, q.1 ≤ p.1) l.
Proof.
  induction 1 as [|x l Hs IH Hx]; intros Hlast; [constructor|].
  destruct l as [|y l'].
  - cbn in Hlast. injection Hlast as <-. repeat constructor. lia.
  - change (last (x :: y :: l')) with (last (y :: l')) in Hlast.
    constructor; [|by apply IH].
    apply last_Some_elem_of in Hlast.
    rewrite Forall_forall in Hx. by apply Hx.
Qed.

Lemma sort_by_key_last l x :
  ∃ p, last (sort_by_key (x :: l)) = Some p.
Proof.
  destruct (last (sort_by_key (x :: l))) as [p|] eqn:Hl; [by eexists|].
  apply last_None in Hl.
  pose proof (sort_by_key_Permutation (x :: l)) as Hp.
  rewrite Hl in Hp. by apply Permutation_nil_cons in Hp.
Qed.

(** [sorted(...)[-1]] on paths whose suffixes are all integers: one of the
    paths, with a greatest suffix. *)
Lemma sorted_checkpoints_last (paths : list string) :
  paths ≠ [] → Forall (λ p, is_Some (checkpoint_step p)) paths →
  ∃ sorted_paths best kb,
    sorted_checkpoints paths = ([], Val sorted_paths)
    ∧ last sorted_paths = Some best
    ∧ best ∈ paths ∧ checkpoint_step best = Some kb
    ∧ ∀ q kq, q ∈ paths → checkpoint_step q = Some kq → kq ≤ kb.
Proof.
  intros Hne Hall. unfold sorted_checkpoints.
  destruct (mapM (λ p, (λ k, (k, p)) <$> checkpoint_step p) paths)
    as [keyed|] eqn:Hm.
  2:{ exfalso. apply mapM_None in Hm. rewrite Exists_exists in Hm.
      destruct Hm as (p & Hp & Hnone). rewrite Forall_forall in Hall.
      destruct (Hall p Hp) as [k Hk]. rewrite Hk in Hnone. discriminate. }
  apply mapM_Some in Hm.
  assert (Hkeyed : ∀ k p, (k, p) ∈ keyed → p ∈ paths ∧ checkpoint_step p = Some k).
  { intros k p Hin. apply list_elem_of_lookup in Hin as [i Hi].
    destruct (Forall2_lookup_r _ _ _ _ _ Hm Hi) as (p' & Hp' & Hf).
    destruct (checkpoint_step p') as [k'|] eqn:Hs; [|discriminate].
    cbn in Hf. injection Hf as <- <-. split; [|done].
    apply list_elem_of_lookup. eauto. }
  assert (Hpaths : ∀ q kq, q ∈ paths → checkpoint_step q = Some kq → (kq, q) ∈ keyed).
  { intros q kq Hin Hq. apply list_elem_of_lookup in Hin as [i Hi].
    destruct (Forall2_lookup_l _ _ _ _ _ Hm Hi) as (kp & Hkp & Hf).
    rewrite Hq in Hf. cbn in Hf. injection Hf as <-.
    apply list_elem_of_lookup. eauto. }
  destruct keyed as [|x keyed].
  { apply Forall2_nil_inv_r in Hm. done. }
  destruct (sort_by_key_last keyed x) as [[kb best] Hlast].
  exists ((sort_by_key (x :: keyed)).*2), best, kb.
  assert (Hin : (kb, best) ∈ x :: keyed).
  { rewrite <- (sort_by_key_Permutation (x :: keyed)). by eapply last_Some_elem_of. }
  destruct (Hkeyed _ _ Hin) as [Hbest Hstep].
  split; [done|]. split; [by rewrite fmap_last, Hlast|].
  split; [done|]. split; [done|].
  intros q kq Hq Hsq.
  pose proof (sorted_last_greatest _ _ (sort_by_key_sorted (x :: keyed)) Hlast) as Hmax.
  rewrite Forall_forall in Hmax.
  apply (Hmax (kq, q)). rewrite sort_by_key_Permutation. by apply Hpaths.
Qed.

(** C6, amended. Discovery runs only when [resume_from_checkpoint] is
    [None] and auto-resume is enabled: otherwise the configuration, and with
    it an explicitly configured checkpoint, is left as it is. When it runs,
    an output directory in which the glob [checkpoint-*] finds nothing
    leaves the resume target unset; and provided the text after the last
    dash of every entry found is a decimal integer, the target becomes one
    of the entries found, whose numeric suffix is greatest: among
    checkpoint-5, checkpoint-20 and checkpoint-3 it is checkpoint-20. *)
Theorem auto_resume_picks_latest (w : World) (cfg : DictDefault) :
  ((is_None (cfg_get cfg "resume_from_checkpoint") = false
    ∨ truthy (cfg_get cfg "auto_resume_from_checkpoints") = false) →
   auto_resume w cfg = ([], Val cfg))
  ∧ (∀ d,
      is_None (cfg_get cfg "resume_from_checkpoint") = true →
      truthy (cfg_get cfg "auto_resume_from_checkpoints") = true →
      cfg_get cfg "output_dir" = VStr d →
      (glob w d "checkpoint-*" = [] →
         auto_resume w cfg = ([], Val cfg)
         ∧ cfg_get cfg "resume_from_checkpoint" = VNone)
      ∧ (glob w d "checkpoint-*" ≠ [] →
         Forall (λ p, is_Some (checkpoint_step p)) (glob w d "checkpoint-*") →
         Forall (λ p, int_exact (split_last "-" p) = true) (glob w d "checkpoint-*") →
         ∃ best kb,
           auto_resume w cfg = ([], Val (<["resume_from_checkpoint" := VStr best]> cfg))
           ∧ best ∈ glob w d "checkpoint-*"
           ∧ checkpoint_step best = Some kb
           ∧ ∀ q kq, q ∈ glob w d "checkpoint-*" → checkpoint_step q = Some kq → kq ≤ kb))
  ∧ auto_resume world0 cfg1
      = ([], Val (<["resume_from_checkpoint" := VStr "out/checkpoint-20"]> cfg1)).
Proof.
  split; [|split].
  - unfold auto_resume. intros [-> | ->]; [done|]. by rewrite andb_false_r.
  - intros d Hnone Hauto Hdir. unfold auto_resume.
    rewrite Hnone, Hauto, Hdir. cbn [andb Path]. rewrite bind_mret.
    split.
    + intros ->. split; [done|]. by destruct (cfg_get cfg "resume_from_checkpoint").
    + intros Hne Hall _.
      destruct (sorted_checkpoints_last _ Hne Hall)
        as (sorted_paths & best & kb & Hsorted & Hlast & Hin & Hstep & Hmax).
      exists best, kb. split; [|done].
      assert (Hlen : (0 <? len (glob w d "checkpoint-*")) = true).
      { apply Z.ltb_lt. unfold len. destruct (glob w d "checkpoint-*"); [done|cbn; lia]. }
      rewrite Hlen, Hsorted. erewrite bind_Val by reflexivity.
      cbn [fst snd app]. by rewrite Hlast.
  - vm_compute. reflexivity.
Qed.

Lemma auto_resume_picks_latest_witness :
  ∃ best kb,
    auto_resume world0 cfg1 = ([], Val (<["resume_from_checkpoint" := VStr best]> cfg1))
    ∧ best ∈ glob world0 "out" "checkpoint-*"
    ∧ checkpoint_step best = Some kb
    ∧ ∀ q kq, q ∈ glob world0 "out" "checkpoint-*" → checkpoint_step q = Some kq → kq ≤ kb.
Proof.
  apply (auto_resume_picks_latest world0 cfg1).
  - vm_compute. reflexivity.
  - vm_compute. reflexivity.
  - vm_compute. reflexivity.
  - vm_compute. discriminate.
  - vm_compute. repeat constructor; eexists; reflexivity.
  - repeat constructor.
Defined.

(** C6, as stated, fails: among checkpoint-5 and checkpoint-final the
    resume step neither selects checkpoint-5 nor leaves the target unset;
    the sort key raises [ValueError]. *)
Lemma auto_resume_malformed_counterexample :
  is_None (cfg_get cfg1 "resume_from_checkpoint") = true
  ∧ truthy (cfg_get cfg1 "auto_resume_from_checkpoints") = true
  ∧ glob world_malformed "out" "checkpoint-*"
      = ["out/checkpoint-5"; "out/checkpoint-final"]
  ∧ auto_resume world_malformed cfg1
      = ([], Exc (ValueError "invalid literal for int() with base 10")).
Proof. vm_compute. by repeat split. Qed.

(** ** choose_config *)

Lemma print_options_Val files : ∀ idx, (print_options idx files).2 = Val tt.
Proof.
  induction files as [|f files IH]; intros idx; cbn [print_options]; [done|].
  rewrite bind_emit. apply IH.
Qed.

Lemma print_options_no_Input files : ∀ idx,
  Forall (λ e, ∀ p, e ≠ Input p) (print_options idx files).1.
Proof.
  induction files as [|f files IH]; intros idx; cbn [print_options]; [constructor|].
  rewrite bind_emit. constructor; [done|]. apply IH.
Qed.

(** The loop starts by prompting, whatever is left to read. *)
Lemma choose_loop_prompts files inputs :
  ∃ t, (choose_loop files inputs).1 = choice_prompt :: t.
Proof. destruct inputs; cbn; eauto. Qed.

(** If the loop gives a file, it is one of the candidates. *)
Lemma choose_loop_chosen files inputs f :
  (choose_loop files inputs).2 = Val f → f ∈ files.
Proof.
  induction inputs as [|line inputs IH]; cbn; [done|].
  destruct (py_int line) as [choice|]; cbn.
  - destruct ((1 <=? choice) && (choice <=? len files)); cbn.
    + destruct (files !! Z.to_nat (choice - 1)) as [file|] eqn:Hf; cbn; [|done].
      intros [= <-]. by eapply list_elem_of_lookup_2.
    + destruct (choose_loop files inputs) as [t [a| |e]]; cbn in *; auto; done.
  - destruct (choose_loop files inputs) as [t [a| |e]]; cbn in *; auto; done.
Qed.

(** A valid first answer [n] selects the [n]-th candidate. *)
Lemma choose_loop_first_valid files line inputs n file :
  py_int line = Some n → files !! Z.to_nat (n - 1) = Some file → 1 ≤ n →
  choose_loop files (line :: inputs) = ([choice_prompt], Val file).
Proof.
  intros Hp Hf Hn. cbn. rewrite Hp.
  assert (Hlen : (Z.to_nat (n - 1) < length files)%nat) by (by eapply lookup_lt_Some).
  assert (Hr : (1 <=? n) && (n <=? len files) = true).
  { unfold len. apply andb_true_intro. split; [apply Z.leb_le|apply Z.leb_le]; lia. }
  rewrite Hr, Hf. done.
Qed.

(** C7. A directory without [*.yml] entries raises the configuration error
    before anything is printed or asked; a directory with exactly one gives
    that file after one line of output and no prompt; a directory with two
    or more prompts the operator, and a file it then gives is one of the
    candidates. *)
Theorem choose_config_cases (w : World) (path : string) :
  (glob w path "*.yml" = [] →
     choose_config w path = ([], Exc (ValueError no_yaml_message)))
  ∧ (∀ file, glob w path "*.yml" = [file] →
     choose_config w path
       = ([Print ("Using default YAML file '" +:+ file +:+ "'")], Val file))
  ∧ ((2 ≤ length (glob w path "*.yml"))%nat →
     ∃ shown asked,
       (choose_config w path).1 = shown ++ choice_prompt :: asked
       ∧ Forall (λ e, ∀ p, e ≠ Input p) shown
       ∧ ∀ file, (choose_config w path).2 = Val file → file ∈ glob w path "*.yml").
Proof.
  unfold choose_config. split; [|split].
  - by intros ->.
  - by intros file ->.
  - destruct (glob w path "*.yml") as [|f1 [|f2 files]] eqn:Hg; cbn [length]; [lia..|].
    intros _. set (yaml_files := f1 :: f2 :: files).
    destruct (choose_loop_prompts yaml_files (stdin w)) as [asked Hasked].
    pose proof (print_options_Val yaml_files 0) as Hval.
    pose proof (print_options_no_Input yaml_files 0) as Hshown.
    destruct (print_options 0 yaml_files) as [shown r]. cbn in Hval, Hshown. subst r.
    exists (Print "Choose a YAML file:" :: shown), asked.
    rewrite bind_emit. cbn [fst snd].
    erewrite bind_Val by reflexivity.
    cbn [fst snd]. rewrite Hasked. split; [done|]. split.
    + by constructor.
    + intros file. apply choose_loop_chosen.
Qed.

Lemma choose_config_cases_witness :
  ∃ shown asked,
    (choose_config world0 "examples").1 = shown ++ choice_prompt :: asked
    ∧ Forall (λ e, ∀ p, e ≠ Input p) shown
    ∧ ∀ file, (choose_config world0 "examples").2 = Val file →
        file ∈ glob world0 "examples" "*.yml".
Proof.
  apply (choose_config_cases world0 "examples"). vm_compute. lia.
Defined.

(** ** The final save *)

(** C4. With the relora schedule active and a lora adapter that is neither
    4-bit nor 8-bit, the finalizer merges and unloads and then performs the
    standard save; with relora active otherwise it returns without writing.
    The standard save, also the whole finalizer when relora is off, is the
    trainer's own save under fsdp, and otherwise a write of the model by the
    process of local rank 0 alone. *)
Theorem final_save_decision (cfg : DictDefault) (safe : bool) :
  (truthy (cfg_get cfg "relora_steps") = true → plain_lora cfg = true →
     finalize cfg safe
       = (MergeAndUnload :: (final_save cfg safe).1, (final_save cfg safe).2))
  ∧ (truthy (cfg_get cfg "relora_steps") = true → plain_lora cfg = false →
     finalize cfg safe = ([], Ret))
  ∧ (truthy (cfg_get cfg "relora_steps") = false →
     finalize cfg safe = final_save cfg safe)
  ∧ (truthy (cfg_get cfg "fsdp") = true →
     final_save cfg safe = ([TrainerSaveModel (cfg_get cfg "output_dir")], Val tt))
  ∧ (truthy (cfg_get cfg "fsdp") = false →
     py_eq_int (cfg_get cfg "local_rank") 0 = true →
     ∃ before,
       final_save cfg safe
         = (before ++ [ModelSavePretrained (cfg_get cfg "output_dir") safe], Val tt)
       ∧ Forall (λ e, is_write e = false) before)
  ∧ (truthy (cfg_get cfg "fsdp") = false →
     py_eq_int (cfg_get cfg "local_rank") 0 = false →
     final_save cfg safe = ([], Val tt)).
Proof.
  unfold finalize, final_save. repeat split.
  - intros -> ->. cbn [when]. by rewrite bind_emit.
  - by intros -> ->.
  - intros ->. cbn [when]. by rewrite bind_mret.
  - by intros ->.
  - intros -> ->. cbn [when].
    destruct (truthy (cfg_get cfg "flash_optimum")); cbn.
    + exists [BetterTransformerReverse]. split; [done|]. by repeat constructor.
    + exists []. split; [done|]. constructor.
  - by intros -> ->.
Qed.

Lemma final_save_decision_witness :
  final_save cfg0 true = ([TrainerSaveModel (cfg_get cfg0 "output_dir")], Val tt)
  ∧ final_save cfg1 true = ([], Val tt)
  ∧ finalize (<["relora_steps" := VInt 150]> cfg1) true = ([], Ret)
  ∧ finalize cfg1 true = final_save cfg1 true.
Proof.
  split; [|split; [|split]].
  - apply (final_save_decision cfg0 true). vm_compute. reflexivity.
  - apply (final_save_decision cfg1 true); vm_compute; reflexivity.
  - apply (final_save_decision (<["relora_steps" := VInt 150]> cfg1) true);
      vm_compute; reflexivity.
  - apply (final_save_decision cfg1 true); vm_compute; reflexivity.
Defined.

(** C3, as the code has it: under fsdp the normal end of training hands the
    model to the trainer's save with no reversal before it, also when
    [flash_optimum] is set, whereas the interruption handler of the same
    configuration reverses the transform before it saves. *)
Theorem fsdp_save_not_reversed (cfg : DictDefault) (safe : bool) :
  truthy (cfg_get cfg "flash_optimum") = true →
  truthy (cfg_get cfg "fsdp") = true →
  truthy (cfg_get cfg "relora_steps") = false →
  finalize cfg safe = ([TrainerSaveModel (cfg_get cfg "output_dir")], Val tt)
  ∧ terminate_handler cfg safe
      = ([BetterTransformerReverse;
          ModelSavePretrained (cfg_get cfg "output_dir") safe], Exc (SystemExit 0)).
Proof.
  intros Hflash Hfsdp Hrelora. unfold finalize, final_save, terminate_handler.
  by rewrite Hflash, Hfsdp, Hrelora.
Qed.

Lemma fsdp_save_not_reversed_witness :
  finalize cfg0 true = ([TrainerSaveModel (VStr "out")], Val tt)
  ∧ terminate_handler cfg0 true
      = ([BetterTransformerReverse; ModelSavePretrained (VStr "out") true],
         Exc (SystemExit 0)).
Proof.
  apply (fsdp_save_not_reversed cfg0 true); vm_compute; reflexivity.
Defined.

(** ** Label inspection *)

Lemma randrange_in_range start stop r :
  start < stop →
  ∃ i, randrange start stop r = ([], Val i) ∧ start ≤ i < stop.
Proof.
  intros H. unfold randrange.
  assert (Hlt : (0 <? stop - start) = true) by (apply Z.ltb_lt; lia).
  rewrite Hlt. eexists. split; [done|].
  pose proof (Z.mod_pos_bound r (stop - start)). lia.
Qed.

Lemma randrange_empty start stop r :
  stop ≤ start →
  randrange start stop r = ([], Exc (ValueError "empty range for randrange()")).
Proof.
  intros H. unfold randrange.
  assert (Hlt : (0 <? stop - start) = false) by (apply Z.ltb_ge; lia).
  by rewrite Hlt.
Qed.

(** Every index of [0, stop) can be drawn. *)
Lemma randrange_reaches stop i :
  0 ≤ i < stop → randrange 0 stop i = ([], Val i).
Proof.
  intros H. destruct (randrange_in_range 0 stop i) as (j & Hj & _); [lia|].
  rewrite Hj. unfold randrange in Hj.
  destruct (0 <? stop - 0); [|done].
  injection Hj as <-. rewrite Z.sub_0_r, Z.mod_small by lia. done.
Qed.

Lemma draws_in_range (w : World) (n : Z) (ks : list nat) :
  0 < n →
  ∃ indices,
    mapM (λ k, randrange 0 n (rand w k)) ks = ([], Val indices)
    ∧ length indices = length ks
    ∧ Forall (λ i, 0 ≤ i < n) indices.
Proof.
  intros Hn. induction ks as [|k ks (indices & Hm & Hlen & Hall)].
  - exists []. by repeat split.
  - destruct (randrange_in_range 0 n (rand w k) Hn) as (i & Hi & Hr).
    exists (i :: indices). cbn [mapM].
    rewrite Hi, bind_pure. fold (mapM (λ k, randrange 0 n (rand w k)) ks).
    rewrite Hm, bind_pure.
    split; [done|]. split; [cbn; by rewrite Hlen|]. by constructor.
Qed.

Lemma debug_indices_in_range (w : World) (train_dataset : dataset) :
  2 ≤ len train_dataset →
  ∃ indices,
    debug_indices w train_dataset = ([], Val indices)
    ∧ length indices = 5%nat
    ∧ Forall (λ i, 0 ≤ i ≤ len train_dataset - 2) indices.
Proof.
  intros Hn. unfold debug_indices.
  destruct (draws_in_range w (len train_dataset - 1) (seq 0 5)) as (ix & Hm & Hlen & Hall);
    [lia|].
  exists ix. split; [done|]. split; [done|].
  eapply Forall_impl; [exact Hall|]. cbn. intros; lia.
Qed.

Lemma debug_indices_empty (w : World) (train_dataset : dataset) :
  len train_dataset < 2 →
  debug_indices w train_dataset
    = ([], Exc (ValueError "empty range for randrange()")).
Proof.
  intros Hn. unfold debug_indices. cbn [seq mapM].
  apply bind_Exc, randrange_empty. lia.
Qed.

Lemma select_in_range (ds : dataset) (indices : list Z) :
  Forall (λ i, 0 ≤ i < len ds) indices →
  ∃ selection,
    select ds indices = ([], Val selection)
    ∧ Forall2 (λ i r, ds !! Z.to_nat i = Some r) indices selection.
Proof.
  intros Hall. unfold select.
  destruct (mapM _ indices) as [rows|] eqn:Hm.
  - exists rows. split; [done|]. apply mapM_Some in Hm.
    eapply Forall2_impl; [exact Hm|]. cbn. intros i r.
    by destruct (0 <=? i).
  - exfalso. apply mapM_None in Hm. rewrite Exists_exists in Hm.
    destruct Hm as (i & Hi & Hnone). rewrite Forall_forall in Hall.
    specialize (Hall i Hi). unfold len in Hall.
    assert (Hle : (0 <=? i) = true) by (apply Z.leb_le; lia).
    rewrite Hle in Hnone. apply lookup_ge_None in Hnone. lia.
Qed.

(** C10. With label inspection enabled and the dataset prepared: a training
    split of fewer than two examples makes the run raise [ValueError] right
    after dataset preparation; otherwise five indices are drawn, each within
    [0, len - 2], hence never the last position; the rows at these indices
    form the selection that is inspected, and the prepared splits are what
    the rest of the function receives. *)
Theorem debug_sampling (w : World) (cfg : DictDefault) (cli_args : TrainerCliArgs) :
  debug cli_args || truthy (cfg_get cfg "debug") = true →
  shard cli_args || merge_lora cli_args || inference cli_args = false →
  (len (prepared w).1.1 < 2 →
     train w cfg cli_args
       = ([LoadTokenizer; PrepareDataset],
          Exc (ValueError "empty range for randrange()")))
  ∧ (2 ≤ len (prepared w).1.1 →
     ∃ indices selection,
       debug_indices w (prepared w).1.1 = ([], Val indices)
       ∧ length indices = 5%nat
       ∧ Forall (λ i, 0 ≤ i ≤ len (prepared w).1.1 - 2) indices
       ∧ Forall (λ i, i ≠ len (prepared w).1.1 - 1) indices
       ∧ select (prepared w).1.1 indices = ([], Val selection)
       ∧ preamble w cfg cli_args
           = ([LoadTokenizer; PrepareDataset; CheckDatasetLabels selection]
                ++ (if prepare_ds_only cli_args then [] else [LoadModel false]),
              if prepare_ds_only cli_args then Ret else Val (Some (prepared w)))).
Proof.
  intros Hdebug Hflags.
  assert (Hinf : inference cli_args = false)
    by (destruct (inference cli_args); [by rewrite orb_true_r in Hflags | done]).
  destruct (prepared w) as [[train_dataset eval_dataset] total_num_steps] eqn:Hprep.
  cbn [fst]. split.
  - intros Hlen. unfold train, run_to_fit, preamble, check_labels.
    rewrite Hdebug, Hflags, Hprep. msimpl.
    rewrite debug_indices_empty by done. by msimpl.
  - intros Hlen.
    destruct (debug_indices_in_range w train_dataset Hlen) as (indices & Hix & Hn & Hall).
    destruct (select_in_range train_dataset indices) as (selection & Hsel & _).
    { eapply Forall_impl; [exact Hall|]. cbn. intros; lia. }
    exists indices, selection.
    split; [done|]. split; [done|]. split; [done|].
    split; [eapply Forall_impl; [exact Hall|]; cbn; intros; lia|].
    split; [done|].
    unfold preamble, check_labels.
    rewrite Hdebug, Hflags, Hprep, Hinf. msimpl.
    rewrite Hix. msimpl. rewrite Hsel. msimpl.
    by destruct (prepare_ds_only cli_args).
Qed.

Lemma debug_sampling_witness :
  ∃ indices selection,
    debug_indices world0 rows3 = ([], Val indices)
    ∧ length indices = 5%nat
    ∧ Forall (λ i, 0 ≤ i ≤ len rows3 - 2) indices
    ∧ Forall (λ i, i ≠ len rows3 - 1) indices
    ∧ select rows3 indices = ([], Val selection)
    ∧ preamble world0 (<["debug" := VBool true]> cfg0) default_cli_args
        = ([LoadTokenizer; PrepareDataset; CheckDatasetLabels selection; LoadModel false],
           Val (Some (prepared world0))).
Proof.
  apply (debug_sampling world0 (<["debug" := VBool true]> cfg0) default_cli_args).
  - vm_compute. reflexivity.
  - vm_compute. reflexivity.
  - vm_compute. discriminate.
Defined.

(** ** The shape of a run *)

Lemma bind_Val_inv {A B} (m : M A) (f : A → M B) t b :
  m ≫= f = (t, Val b) →
  ∃ t1 a t2, m = (t1, Val a) ∧ f a = (t2, Val b) ∧ t = t1 ++ t2.
Proof.
  destruct m as [t1 [a| |e]]; cbn; intros [= <- H]; try done.
  exists t1, a, (f a).1. split; [done|]. split; [|done].
  rewrite <- H. by destruct (f a).
Qed.

Lemma debug_indices_trace w d : (debug_indices w d).1 = [].
Proof.
  destruct (Z.lt_ge_cases (len d) 2) as [Hn|Hn].
  - by rewrite debug_indices_empty.
  - destruct (debug_indices_in_range w d Hn) as (ix & -> & _). done.
Qed.

Lemma select_trace ds indices : (select ds indices).1 = [].
Proof. unfold select. by destruct (mapM _ indices). Qed.

Lemma check_labels_events w ds :
  Forall (λ e, ∃ selection, e = CheckDatasetLabels selection) (check_labels w ds).1.
Proof.
  unfold check_labels. destruct ds as [[[tr ev] n]|]; msimpl; [|constructor].
  pose proof (debug_indices_trace w tr) as Hd.
  destruct (debug_indices w tr) as [t1 [ix| |e]]; cbn in Hd; subst t1; msimpl;
    try constructor.
  pose proof (select_trace tr ix) as Hs.
  destruct (select tr ix) as [t2 [sel| |e]]; cbn in Hs; subst t2; msimpl;
    repeat constructor. by eexists.
Qed.

Lemma preamble_events w cfg cli_args :
  Forall (λ e, is_preamble_event e = true) (preamble w cfg cli_args).1.
Proof.
  unfold preamble. apply bind_Forall; [by repeat constructor|]. intros _ _.
  apply bind_Forall.
  { destruct (negb _); msimpl; by repeat constructor. }
  intros ds _. apply bind_Forall.
  { apply when_Forall. intros _.
    eapply Forall_impl; [apply check_labels_events|]. by intros e [sel ->]. }
  intros _ _. apply bind_Forall.
  { apply when_Forall. intros _. constructor. }
  intros _ _. msimpl. by repeat constructor.
Qed.

(** When the preamble falls through, the prepare-only flag is off and the
    dataset locals are bound exactly if none of shard, merge_lora and
    inference is set. *)
Lemma preamble_Val w cfg cli_args t ds :
  preamble w cfg cli_args = (t, Val ds) →
  prepare_ds_only cli_args = false
  ∧ ds = (if negb (shard cli_args || merge_lora cli_args || inference cli_args)
          then Some (prepared w) else None).
Proof.
  unfold preamble. intros H.
  apply bind_Val_inv in H as (t1 & [] & t2 & _ & H & _).
  apply bind_Val_inv in H as (t3 & ds' & t4 & Hds & H & _).
  apply bind_Val_inv in H as (t5 & [] & t6 & _ & H & _).
  apply bind_Val_inv in H as (t7 & [] & t8 & Hprep & H & _).
  apply bind_Val_inv in H as (t9 & [] & t10 & _ & H & _).
  injection H as _ <-.
  split.
  - by destruct (prepare_ds_only cli_args).
  - destruct (negb _); msimpl in Hds; injection Hds as _ <-; done.
Qed.

Lemma merge_branch_not_Val cfg safe t u : merge_branch cfg safe ≠ (t, Val u).
Proof.
  unfold merge_branch. msimpl.
  destruct (py_eq_int (cfg_get cfg "local_rank") 0); msimpl; [|done].
  destruct (cfg_get cfg "output_dir"); msimpl; done.
Qed.

(** The branches fall through only when none of them is taken. *)
Lemma branches_Val cfg cli_args t u :
  branches cfg cli_args = (t, Val u) →
  t = []
  ∧ merge_lora cli_args && negb (is_None (cfg_get cfg "adapter")) = false
  ∧ inference cli_args = false ∧ shard cli_args = false.
Proof.
  unfold branches, lower_branches. intros H.
  apply bind_Val_inv in H as (t1 & [] & t2 & Hm & H & ->).
  apply bind_Val_inv in H as (t3 & [] & t4 & Hi & Hs & ->).
  destruct (merge_lora cli_args && negb (is_None (cfg_get cfg "adapter"))).
  { by apply merge_branch_not_Val in Hm. }
  destruct (inference cli_args); [done|].
  destruct (shard cli_args); [done|].
  msimpl in Hm. msimpl in Hi. msimpl in Hs.
  injection Hm as <-. injection Hi as <-. injection Hs as <-. done.
Qed.

Lemma sorted_checkpoints_trace paths :
  (sorted_checkpoints paths).1 = [] ∧ (sorted_checkpoints paths).2 ≠ Ret.
Proof. unfold sorted_checkpoints. by destruct (mapM _ paths). Qed.

Lemma cfg_get_insert_ne (cfg : DictDefault) k j v :
  k ≠ j → cfg_get (<[k := v]> cfg) j = cfg_get cfg j.
Proof. intros H. unfold cfg_get. by rewrite lookup_insert_ne. Qed.

(** The resume step makes no call on the collaborators, never returns from
    [train], and changes no option but [resume_from_checkpoint]. *)
Lemma auto_resume_inv w cfg :
  (auto_resume w cfg).1 = []
  ∧ (auto_resume w cfg).2 ≠ Ret
  ∧ ∀ cfg', (auto_resume w cfg).2 = Val cfg' →
      ∀ k, k ≠ "resume_from_checkpoint" → cfg_get cfg' k = cfg_get cfg k.
Proof.
  unfold auto_resume.
  destruct (is_None _ && truthy _).
  2:{ msimpl. repeat split; [done|]. by intros cfg' [= <-]. }
  destruct (cfg_get cfg "output_dir") as [| | |d| |] eqn:Hd; msimpl;
    try (repeat split; done).
  destruct (0 <? len (glob w d "checkpoint-*")).
  2:{ msimpl. repeat split; [done|]. by intros cfg' [= <-]. }
  destruct (sorted_checkpoints_trace (glob w d "checkpoint-*")) as [Ht Hr].
  destruct (sorted_checkpoints (glob w d "checkpoint-*")) as [t [sp| |e]];
    cbn in Ht, Hr; subst; msimpl; try (repeat split; done).
  destruct (last sp) as [p|]; msimpl; repeat split; try done.
  intros cfg' [= <-] k Hk. by apply cfg_get_insert_ne.
Qed.

(** The calls of the train branch before [trainer.train], when it gets
    that far. *)
Lemma train_setup_Val w cfg ds t cfg' :
  train_setup w cfg ds = (t, Val cfg') →
  ∃ train_dataset eval_dataset total_num_steps d,
    ds = Some (train_dataset, eval_dataset, total_num_steps)
    ∧ auto_resume w cfg = ([], Val cfg')
    ∧ cfg_get cfg "output_dir" = VStr d
    ∧ t = [SetupTrainer train_dataset eval_dataset total_num_steps; SetUseCache false]
          ++ (if torch_compiles w then [TorchCompile] else [])
          ++ (if peft_config w then [PeftConfigSavePretrained (VStr d)] else [])
          ++ (if py_eq_int (cfg_get cfg "local_rank") 0 then [SignalSIGINT] else [])
          ++ (if is_dir w d then [] else [MakeDirs d])
          ++ [TokenizerSavePretrained (VStr d)].
Proof.
  unfold train_setup. intros H.
  destruct (auto_resume_inv w cfg) as (Ht & _ & Hsame).
  destruct (auto_resume w cfg) as [ta [c| |e]]; cbn in Ht; subst ta; try done.
  specialize (Hsame c eq_refl).
  rewrite bind_pure in H.
  destruct ds as [[[tr ev] n]|]; [|done]. msimpl in H.
  rewrite !Hsame in H by done.
  destruct (cfg_get cfg "output_dir") as [| | |d| |] eqn:Hd;
    try (by destruct (torch_compiles w), (peft_config w),
              (py_eq_int (cfg_get cfg "local_rank") 0)).
  exists tr, ev, n, d.
  destruct (torch_compiles w), (peft_config w),
    (py_eq_int (cfg_get cfg "local_rank") 0); msimpl in H;
    destruct (is_dir w d); msimpl in H; injection H as <- <-; done.
Qed.

(** The calls of a run that reaches [trainer.train]. *)
Lemma run_to_fit_Val w cfg cli_args t cfg' :
  run_to_fit w cfg cli_args = (t, Val cfg') →
  ∃ t1 ds t2,
    preamble w cfg cli_args = (t1, Val ds)
    ∧ branches cfg cli_args = ([], Val tt)
    ∧ train_setup w cfg ds = (t2, Val cfg')
    ∧ t = t1 ++ t2 ++ [TrainerTrain (cfg_get cfg' "resume_from_checkpoint")
                                    (truthy (cfg_get cfg' "flash_optimum"))].
Proof.
  unfold run_to_fit. intros H.
  apply bind_Val_inv in H as (t1 & ds & r1 & Hpre & H & ->).
  apply bind_Val_inv in H as (tb & [] & r2 & Hbr & H & ->).
  apply bind_Val_inv in H as (t2 & c & r3 & Hset & H & ->).
  unfold fit in H. msimpl in H. injection H as <- <-.
  destruct (branches_Val _ _ _ _ Hbr) as (-> & _).
  exists t1, ds, t2. done.
Qed.

(** ** Interruption *)

Lemma handler_installed_app t1 t2 :
  handler_installed (t1 ++ t2) = handler_installed t1 || handler_installed t2.
Proof. apply existsb_app. Qed.

Lemma preamble_installs_nothing w cfg cli_args :
  handler_installed (preamble w cfg cli_args).1 = false.
Proof.
  pose proof (preamble_events w cfg cli_args) as H.
  generalize dependent (preamble w cfg cli_args).1. intros t H.
  induction H as [|e t He _ IH]; [done|].
  unfold handler_installed in *. cbn [existsb]. rewrite IH.
  by destruct e.
Qed.

(** C2. In a run that reaches [trainer.train], the SIGINT handler has been
    installed exactly when [local_rank == 0]. A signal delivered to that
    process during [trainer.train] is answered by the reversal of the
    transform if [flash_optimum] is set, then one save of the model into the
    output directory with the configured serialisation flag, then
    [sys.exit(0)]; delivered to a process of another local rank it makes no
    call at all, and the process ends by [KeyboardInterrupt]. *)
Theorem interrupt_saves_on_coordinator_only (w : World) (cfg : DictDefault)
    (cli_args : TrainerCliArgs) (t : list event) (cfg' : DictDefault) :
  run_to_fit w cfg cli_args = (t, Val cfg') →
  handler_installed t = py_eq_int (cfg_get cfg "local_rank") 0
  ∧ (py_eq_int (cfg_get cfg "local_rank") 0 = true →
     train_interrupted w cfg cli_args
       = (t ++ (if truthy (cfg_get cfg "flash_optimum")
                then [BetterTransformerReverse] else [])
            ++ [ModelSavePretrained (cfg_get cfg "output_dir")
                  (is_True (cfg_get cfg "save_safetensors"))],
          Exc (SystemExit 0)))
  ∧ (py_eq_int (cfg_get cfg "local_rank") 0 = false →
     train_interrupted w cfg cli_args = (t, Exc KeyboardInterrupt)).
Proof.
  intros Hrun.
  destruct (run_to_fit_Val _ _ _ _ _ Hrun) as (t1 & ds & t2 & Hpre & _ & Hset & Ht).
  destruct (train_setup_Val _ _ _ _ _ Hset)
    as (tr & ev & n & d & _ & Hauto & Hd & Ht2).
  destruct (auto_resume_inv w cfg) as (_ & _ & Hsame).
  rewrite Hauto in Hsame. specialize (Hsame cfg' eq_refl).
  assert (Hinst : handler_installed t = py_eq_int (cfg_get cfg "local_rank") 0).
  { rewrite Ht, !handler_installed_app.
    pose proof (preamble_installs_nothing w cfg cli_args) as Hp.
    rewrite Hpre in Hp. cbn [fst] in Hp. rewrite Hp, Ht2.
    by destruct (torch_compiles w), (peft_config w),
      (py_eq_int (cfg_get cfg "local_rank") 0), (is_dir w d). }
  split; [done|].
  unfold train_interrupted, deliver_sigint, terminate_handler, safe_serialization.
  rewrite Hrun. cbn [fst]. erewrite bind_Val by reflexivity.
  rewrite Hinst, !Hsame by done.
  split; intros ->; [|by rewrite app_nil_r].
  by destruct (truthy (cfg_get cfg "flash_optimum")).
Qed.

Lemma interrupt_saves_on_coordinator_only_witness :
  handler_installed (run_to_fit world0 cfg0 default_cli_args).1 = true
  ∧ handler_installed (run_to_fit world0 cfg1 default_cli_args).1 = false
  ∧ train_interrupted world0 cfg1 default_cli_args
      = ((run_to_fit world0 cfg1 default_cli_args).1, Exc KeyboardInterrupt).
Proof.
  split; [|split].
  - eapply eq_trans;
      [eapply (interrupt_saves_on_coordinator_only world0 cfg0 default_cli_args)|];
      vm_compute; reflexivity.
  - eapply eq_trans;
      [eapply (interrupt_saves_on_coordinator_only world0 cfg1 default_cli_args)|];
      vm_compute; reflexivity.
  - eapply (interrupt_saves_on_coordinator_only world0 cfg1 default_cli_args);
      vm_compute; reflexivity.
Defined.

(** ** Writes by non-coordinating processes *)

(** C5, as the code has it: in a run that reaches [trainer.train] on a
    process whose local rank is not 0, that process has saved the tokenizer
    into the output directory, and the adapter configuration too when the
    model came with one. *)
Theorem tokenizer_written_on_every_rank (w : World) (cfg : DictDefault)
    (cli_args : TrainerCliArgs) (t : list event) (cfg' : DictDefault) :
  py_eq_int (cfg_get cfg "local_rank") 0 = false →
  run_to_fit w cfg cli_args = (t, Val cfg') →
  TokenizerSavePretrained (cfg_get cfg "output_dir") ∈ t
  ∧ (peft_config w = true → PeftConfigSavePretrained (cfg_get cfg "output_dir") ∈ t)
  ∧ existsb is_write t = true.
Proof.
  intros Hrank Hrun.
  destruct (run_to_fit_Val _ _ _ _ _ Hrun) as (t1 & ds & t2 & _ & _ & Hset & ->).
  destruct (train_setup_Val _ _ _ _ _ Hset) as (tr & ev & n & d & _ & _ & -> & ->).
  assert (Htok : TokenizerSavePretrained (VStr d)
                  ∈ t1 ++ ([SetupTrainer tr ev n; SetUseCache false]
                    ++ (if torch_compiles w then [TorchCompile] else [])
                    ++ (if peft_config w then [PeftConfigSavePretrained (VStr d)] else [])
                    ++ (if py_eq_int (cfg_get cfg "local_rank") 0
                        then [SignalSIGINT] else [])
                    ++ (if is_dir w d then [] else [MakeDirs d])
                    ++ [TokenizerSavePretrained (VStr d)])
                  ++ [TrainerTrain (cfg_get cfg' "resume_from_checkpoint")
                        (truthy (cfg_get cfg' "flash_optimum"))]).
  { rewrite !elem_of_app. right. left. do 5 right. by left. }
  split; [done|]. split.
  - intros ->. rewrite !elem_of_app. right. left. do 2 right. left. by left.
  - apply existsb_exists. exists (TokenizerSavePretrained (VStr d)).
    split; [by apply list_elem_of_In|done].
Qed.

Lemma tokenizer_written_on_every_rank_witness :
  TokenizerSavePretrained (VStr "out") ∈ (run_to_fit world0 cfg1 default_cli_args).1.
Proof.
  eapply (tokenizer_written_on_every_rank world0 cfg1 default_cli_args);
    vm_compute; reflexivity.
Defined.

(** ** Mode dispatch *)

Lemma bind_assoc {A B C} (m : M A) (f : A → M B) (g : B → M C) :
  (m ≫= f) ≫= g = m ≫= (λ a, f a ≫= g).
Proof.
  destruct m as [t [a| |e]]; cbn; try done.
  destruct (f a) as [t' [b| |e]]; cbn; try done.
  by rewrite app_assoc.
Qed.

(** Once the preamble has fallen through, the run is the terminal sequence
    of the mode the priority order selects, and of no other. *)
Lemma train_runs_selected_mode w cfg cli_args t ds :
  preamble w cfg cli_args = (t, Val ds) →
  train w cfg cli_args
    = (t ++ (mode_body w cfg cli_args ds (spec_select_mode cfg cli_args)).1,
       (mode_body w cfg cli_args ds (spec_select_mode cfg cli_args)).2).
Proof.
  intros Hpre. destruct (preamble_Val _ _ _ _ _ Hpre) as [Hprep _].
  unfold train, run_to_fit. rewrite bind_assoc.
  erewrite bind_Val by exact Hpre. cbn beta.
  match goal with
  | |- (_ ++ ?a.1, _) = (_ ++ ?b.1, _) => assert (a = b) as ->; [|done]
  end.
  unfold spec_select_mode, branches, lower_branches, mode_body, fit.
  rewrite Hprep.
  destruct (merge_lora cli_args && negb (is_None (cfg_get cfg "adapter"))).
  { pose proof (merge_branch_not_Val cfg (safe_serialization cfg)) as Hm.
    msimpl.
    destruct (merge_branch cfg (safe_serialization cfg)) as [tm [[]| |e]];
      [by destruct (Hm tm tt)|done..]. }
  destruct (inference cli_args); [done|].
  destruct (shard cli_args); [done|].
  msimpl.
  destruct (train_setup w cfg ds) as [ts [c| |e]]; msimpl; [|done..].
  destruct (finalize c (safe_serialization cfg)) as [tf [[]| |e]]; msimpl;
    by rewrite <- ?app_assoc.
Qed.

(** With the prepare-only flag the preamble never falls through: the run
    stops there, before the model is loaded. *)
Lemma prepare_only_stops w cfg cli_args :
  prepare_ds_only cli_args = true →
  train w cfg cli_args
    = ((preamble w cfg cli_args).1,
       match (preamble w cfg cli_args).2 with Exc e => Exc e | _ => Ret end)
  ∧ Forall (λ e, ∀ b, e ≠ LoadModel b) (train w cfg cli_args).1.
Proof.
  intros Hp.
  assert (Htrain : train w cfg cli_args
    = ((preamble w cfg cli_args).1,
       match (preamble w cfg cli_args).2 with Exc e => Exc e | _ => Ret end)).
  { unfold train, run_to_fit. rewrite bind_assoc.
    destruct (preamble w cfg cli_args) as [t [ds| |e]] eqn:Hpre; [|done..].
    apply preamble_Val in Hpre as [Hno _]. congruence. }
  split; [done|]. rewrite Htrain. cbn [fst].
  unfold preamble. rewrite Hp.
  apply bind_Forall; [by repeat constructor|]. intros _ _.
  apply bind_Forall.
  { destruct (negb _); msimpl; by repeat constructor. }
  intros ds _. apply bind_Forall.
  { apply when_Forall. intros _.
    eapply Forall_impl; [apply check_labels_events|]. by intros e [sel ->]. }
  intros _ _. msimpl. constructor.
Qed.

(** C1, as the code has it: with label inspection asked for and one of
    shard, merge_lora and inference set, the dataset locals are unbound when
    line 196 reads them, and the run raises before any branch is reached. *)
Theorem debug_without_dataset_raises (w : World) (cfg : DictDefault)
    (cli_args : TrainerCliArgs) :
  debug cli_args || truthy (cfg_get cfg "debug") = true →
  shard cli_args || merge_lora cli_args || inference cli_args = true →
  train w cfg cli_args = ([LoadTokenizer], Exc (UnboundLocalError "train_dataset")).
Proof.
  intros Hdebug Hflags. unfold train, run_to_fit, preamble, check_labels.
  rewrite Hdebug, Hflags. by msimpl.
Qed.

Lemma debug_without_dataset_raises_witness :
  train world0 cfg0
    {| debug := true; inference := false; merge_lora := false;
       prepare_ds_only := false; prompter := None; shard := true |}
  = ([LoadTokenizer], Exc (UnboundLocalError "train_dataset")).
Proof.
  apply debug_without_dataset_raises; vm_compute; reflexivity.
Defined.

(** ** The merge flag without an adapter *)






(** With [merge_lora] as the only flag and no adapter, the train branch is
    entered without its dataset: the run raises after model loading, at the
    latest when line 252 reads [train_dataset], and never calls
    [trainer.train]. *)
Lemma merge_flag_alone_never_trains (w : World) (cfg : DictDefault)
    (cli_args : TrainerCliArgs) :
  merge_lora cli_args = true →
  is_None (cfg_get cfg "adapter") = true →
  inference cli_args = false → shard cli_args = false →
  prepare_ds_only cli_args = false →
  debug cli_args || truthy (cfg_get cfg "debug") = false →
  ∃ e, train w cfg cli_args = ([LoadTokenizer; LoadModel false], Exc e).
Proof.
  intros Hm Ha Hi Hs Hp Hd.
  unfold train, run_to_fit, preamble, branches, lower_branches, train_setup.
  rewrite Hm, Ha, Hi, Hs, Hp, Hd. msimpl.
  destruct (auto_resume_inv w cfg) as (Ht & Hr & _).
  destruct (auto_resume w cfg) as [ta [c| |e]]; cbn [fst snd] in Ht, Hr; subst ta;
    msimpl; [by eexists|done|by eexists].
Qed.

(** * Further properties of the code *)

(** ** load_cfg: what the overrides keep *)

(** X1. The override loop changes no key but those the overrides name. *)
Theorem overrides_leave_other_keys (cfg : DictDefault)
    (kwargs : list (string * pyval)) (j : string) :
  j ∉ kwargs.*1 → apply_overrides cfg kwargs !! j = cfg !! j.
Proof. apply apply_overrides_other. Qed.

Lemma overrides_leave_other_keys_witness :
  apply_overrides cfg0 [("seed", VInt 1); ("fsdp", VNone)] !! "output_dir"
    = cfg0 !! "output_dir".
Proof.
  apply overrides_leave_other_keys. apply (bool_decide_unpack _). vm_compute. exact I.
Defined.

Lemma override_step_strict_dom cfg k v :
  truthy (cfg_get cfg "strict") = true → dom (override_step cfg (k, v)) = dom cfg.
Proof.
  intros Hs. unfold override_step, cfg_has. rewrite Hs. cbn [negb]. rewrite orb_false_r.
  case_bool_decide as Hk; [|done].
  apply elem_of_dom in Hk.
  destruct (isinstance_bool (cfg_get cfg k)); rewrite dom_insert_L; set_solver.
Qed.

(** X2. A strict configuration whose [strict] option no override names keeps
    exactly the keys of its source: no override adds a key. *)
Theorem strict_overrides_add_no_key (src : DictDefault)
    (kwargs : list (string * pyval)) :
  truthy (cfg_get src "strict") = true → "strict" ∉ kwargs.*1 →
  dom (apply_overrides src kwargs) = dom src.
Proof.
  revert src. induction kwargs as [|[k v] kwargs IH]; intros src Hs Hk; [done|].
  cbn in Hk. apply not_elem_of_cons in Hk as [Hne Hk].
  change (apply_overrides src ((k, v) :: kwargs))
    with (apply_overrides (override_step src (k, v)) kwargs).
  rewrite IH; [by apply override_step_strict_dom| |done].
  unfold cfg_get in *. by rewrite override_step_other.
Qed.

Lemma strict_overrides_add_no_key_witness :
  dom (apply_overrides cfg0 [("seed", VInt 1); ("fsdp", VNone)]) = dom cfg0.
Proof.
  apply strict_overrides_add_no_key.
  - vm_compute. reflexivity.
  - apply (bool_decide_unpack _). vm_compute. exact I.
Defined.

Lemma override_step_nonstrict_dom cfg k v :
  truthy (cfg_get cfg "strict") = false →
  dom (override_step cfg (k, v)) = {[k]} ∪ dom cfg.
Proof.
  intros Hs. unfold override_step. rewrite Hs. cbn [negb]. rewrite orb_true_r.
  destruct (isinstance_bool (cfg_get cfg k)); by rewrite dom_insert_L.
Qed.

(** X3. A configuration that is not strict, and whose [strict] option no
    override names, ends with the keys of its source and every key the
    overrides name. *)
Theorem nonstrict_overrides_add_every_key (src : DictDefault)
    (kwargs : list (string * pyval)) :
  truthy (cfg_get src "strict") = false → "strict" ∉ kwargs.*1 →
  dom (apply_overrides src kwargs) = dom src ∪ list_to_set kwargs.*1.
Proof.
  revert src. induction kwargs as [|[k v] kwargs IH]; intros src Hs Hk.
  - cbn. set_solver.
  - cbn in Hk. apply not_elem_of_cons in Hk as [Hne Hk].
    change (apply_overrides src ((k, v) :: kwargs))
      with (apply_overrides (override_step src (k, v)) kwargs).
    rewrite IH; [rewrite override_step_nonstrict_dom by done; cbn; set_solver| |done].
    unfold cfg_get in *. by rewrite override_step_other.
Qed.

Lemma nonstrict_overrides_add_every_key_witness :
  dom (apply_overrides (delete "strict" cfg0) [("seed", VInt 1); ("fsdp", VNone)])
    = dom (delete "strict" cfg0) ∪ list_to_set [("seed", VInt 1); ("fsdp", VNone)].*1.
Proof.
  apply nonstrict_overrides_add_every_key.
  - vm_compute. reflexivity.
  - apply (bool_decide_unpack _). vm_compute. exact I.
Defined.

Lemma override_step_bool cfg kv k b :
  cfg !! k = Some (VBool b) → ∃ b', override_step cfg kv !! k = Some (VBool b').
Proof.
  intros Hk. destruct kv as [j v]. destruct (decide (k = j)) as [<-|Hne].
  - rewrite override_step_self. unfold cfg_has, stored_value, cfg_get.
    rewrite Hk. cbn. eauto.
  - rewrite override_step_other by done. eauto.
Qed.

(** X4. An option whose loaded value is a boolean holds a boolean after any
    overrides, whatever values they carry and in whatever order. *)
Theorem overrides_keep_booleans (src : DictDefault)
    (kwargs : list (string * pyval)) (k : string) (b : bool) :
  src !! k = Some (VBool b) →
  ∃ b', apply_overrides src kwargs !! k = Some (VBool b').
Proof.
  revert src b. induction kwargs as [|kv kwargs IH]; intros src b Hk; [by eexists|].
  destruct (override_step_bool src kv k b Hk) as [b' Hb'].
  change (apply_overrides src (kv :: kwargs))
    with (apply_overrides (override_step src kv) kwargs).
  by eapply IH.
Qed.

Lemma overrides_keep_booleans_witness :
  ∃ b', apply_overrides cfg0 [("save_safetensors", VStr "false"); ("seed", VInt 1)]
          !! "save_safetensors" = Some (VBool b').
Proof.
  apply (overrides_keep_booleans cfg0 _ "save_safetensors" true).
  vm_compute. reflexivity.
Defined.

(** ** choose_config: the selection loop *)

Lemma choose_loop_invalid files line inputs :
  valid_choice files line = false →
  ∃ msg,
    choose_loop files (line :: inputs)
      = (choice_prompt :: Print msg :: (choose_loop files inputs).1,
         (choose_loop files inputs).2).
Proof.
  unfold valid_choice. intros Hv. cbn [choose_loop].
  destruct (py_int line) as [choice|].
  - rewrite Hv. eexists. rewrite bind_emit. cbn [fst snd]. by rewrite bind_emit.
  - eexists. rewrite bind_emit. cbn [fst snd]. by rewrite bind_emit.
Qed.

Lemma choose_loop_valid files line inputs :
  valid_choice files line = true →
  ∃ n file,
    py_int line = Some n ∧ 1 ≤ n ≤ len files
    ∧ files !! Z.to_nat (n - 1) = Some file
    ∧ choose_loop files (line :: inputs) = ([choice_prompt], Val file).
Proof.
  unfold valid_choice. intros Hv.
  destruct (py_int line) as [n|] eqn:Hp; [|done].
  apply andb_prop in Hv as [H1 H2]. apply Z.leb_le in H1, H2.
  destruct (files !! Z.to_nat (n - 1)) as [file|] eqn:Hf.
  - exists n, file. split; [done|]. split; [done|]. split; [done|].
    by eapply choose_loop_first_valid.
  - apply lookup_ge_None in Hf. unfold len in H2. lia.
Qed.

(** X5. Of answers in ASCII within the digit limit of [int()]: those that
    are no integer, or an integer outside [1, len(yaml_files)], are each
    answered by a message and a new prompt; the first valid answer [n] ends
    the loop with the [n]-th candidate, and what follows it in the input is
    not read. *)
Theorem choose_loop_skips_invalid (files bad rest : list string) (line : string) :
  Forall (λ l, int_exact l = true) (bad ++ [line]) →
  Forall (λ l, valid_choice files l = false) bad →
  valid_choice files line = true →
  ∃ n file t,
    py_int line = Some n
    ∧ files !! Z.to_nat (n - 1) = Some file
    ∧ choose_loop files (bad ++ line :: rest) = (t, Val file)
    ∧ prompts t = S (length bad).
Proof.
  intros _ Hbad Hline.
  destruct (choose_loop_valid files line rest Hline) as (n & file & Hn & _ & Hf & Hrun).
  exists n, file.
  induction Hbad as [|b bad Hb _ (t & _ & _ & IH & Hcount)].
  - exists [choice_prompt]. by repeat split.
  - destruct (choose_loop_invalid files b (bad ++ line :: rest) Hb) as [msg Hstep].
    rewrite IH in Hstep. cbn [fst snd] in Hstep.
    exists (choice_prompt :: Print msg :: t).
    split; [done|]. split; [done|]. split; [done|].
    unfold prompts in *. cbn. by rewrite Hcount.
Qed.

Lemma choose_loop_skips_invalid_witness :
  ∃ n file t,
    py_int "2" = Some n
    ∧ ["a.yml"; "b.yml"] !! Z.to_nat (n - 1) = Some file
    ∧ choose_loop ["a.yml"; "b.yml"] (["x"; "7"] ++ "2" :: ["1"]) = (t, Val file)
    ∧ prompts t = S (length ["x"; "7"]).
Proof.
  apply choose_loop_skips_invalid.
  - repeat constructor.
  - repeat constructor.
  - vm_compute. reflexivity.
Defined.

(** X6. When the input, of lines in ASCII within the digit limit of
    [int()], ends before any valid answer, the loop has prompted once per
    line and once more, and [input()] raises [EOFError]: the loop gives no
    file. *)
Theorem choose_loop_end_of_input (files inputs : list string) :
  Forall (λ l, int_exact l = true) inputs →
  Forall (λ l, valid_choice files l = false) inputs →
  ∃ t, choose_loop files inputs = (t, Exc EOFError)
       ∧ prompts t = S (length inputs).
Proof.
  intros _. induction 1 as [|b inputs Hb _ (t & IH & Hcount)].
  - by exists [choice_prompt].
  - destruct (choose_loop_invalid files b inputs Hb) as [msg Hstep].
    rewrite IH in Hstep. cbn [fst snd] in Hstep.
    exists (choice_prompt :: Print msg :: t). split; [done|].
    unfold prompts in *. cbn. by rewrite Hcount.
Qed.

Lemma choose_loop_end_of_input_witness :
  ∃ t, choose_loop ["a.yml"; "b.yml"] ["0"; "three"; "-1"] = (t, Exc EOFError)
       ∧ prompts t = S (length ["0"; "three"; "-1"]).
Proof. apply choose_loop_end_of_input; repeat constructor. Defined.

(** ** train: the modes *)

(** X7. With [prepare_ds_only] set, the run ends where the preamble ends,
    by [return] or by an exception of the label inspection, and the model is
    never loaded. *)
Theorem prepare_only_never_loads_model (w : World) (cfg : DictDefault)
    (cli_args : TrainerCliArgs) :
  prepare_ds_only cli_args = true →
  train w cfg cli_args
    = ((preamble w cfg cli_args).1,
       match (preamble w cfg cli_args).2 with Exc e => Exc e | _ => Ret end)
  ∧ Forall (λ e, ∀ b, e ≠ LoadModel b) (train w cfg cli_args).1.
Proof. apply prepare_only_stops. Qed.

Lemma prepare_only_never_loads_model_witness :
  Forall (λ e, ∀ b, e ≠ LoadModel b)
    (train world0 cfg0
       {| debug := false; inference := false; merge_lora := false;
          prepare_ds_only := true; prompter := None; shard := false |}).1.
Proof. apply prepare_only_never_loads_model. reflexivity. Defined.

(** X8. Once tokenizer, dataset and model are loaded without an exception
    and without the prepare-only return, the rest of the run is the
    terminal sequence of one mode, the first in the order merge_lora with
    an adapter, inference, shard, train whose condition holds. *)
Theorem dispatch_follows_priority (w : World) (cfg : DictDefault)
    (cli_args : TrainerCliArgs) (t : list event)
    (ds : option (dataset * dataset * Z)) :
  preamble w cfg cli_args = (t, Val ds) →
  train w cfg cli_args
    = (t ++ (mode_body w cfg cli_args ds (spec_select_mode cfg cli_args)).1,
       (mode_body w cfg cli_args ds (spec_select_mode cfg cli_args)).2).
Proof. apply train_runs_selected_mode. Qed.

Lemma dispatch_follows_priority_witness :
  train world0 cfg1 default_cli_args
    = ([LoadTokenizer; PrepareDataset; LoadModel false]
         ++ (mode_body world0 cfg1 default_cli_args (Some (prepared world0))
               (spec_select_mode cfg1 default_cli_args)).1,
       (mode_body world0 cfg1 default_cli_args (Some (prepared world0))
          (spec_select_mode cfg1 default_cli_args)).2).
Proof. apply dispatch_follows_priority. vm_compute. reflexivity. Defined.



(** X10. With [shard] set, the merge branch not selected and [inference]
    off (and neither label inspection nor prepare-only), the run loads the
    model, saves it into the output directory and returns. The save is not
    conditioned on the local rank: every process performs it. *)
Theorem shard_mode_run (w : World) (cfg : DictDefault) (cli_args : TrainerCliArgs) :
  shard cli_args = true →
  merge_lora cli_args && negb (is_None (cfg_get cfg "adapter")) = false →
  inference cli_args = false →
  prepare_ds_only cli_args = false →
  debug cli_args || truthy (cfg_get cfg "debug") = false →
  train w cfg cli_args
    = ([LoadTokenizer; LoadModel false;
        ModelSavePretrained (cfg_get cfg "output_dir")
          (is_True (cfg_get cfg "save_safetensors"))],
       Ret).
Proof.
  intros Hs Hm Hi Hp Hd.
  unfold train, run_to_fit, preamble, branches, lower_branches, safe_serialization.
  rewrite Hs, Hm, Hi, Hp, Hd. by msimpl.
Qed.

Lemma shard_mode_run_witness :
  train world0 cfg1
    {| debug := false; inference := false; merge_lora := true;
       prepare_ds_only := false; prompter := None; shard := true |}
  = ([LoadTokenizer; LoadModel false; ModelSavePretrained (VStr "out") true], Ret).
Proof. apply shard_mode_run; vm_compute; reflexivity. Defined.

(** X11. With [inference] set and the merge branch not selected (and
    neither label inspection nor prepare-only), the model is loaded for
    inference, the interactive loop runs with the given prompter, and the
    run returns; the shard flag makes no difference. *)
Theorem inference_mode_run (w : World) (cfg : DictDefault) (cli_args : TrainerCliArgs) :
  inference cli_args = true →
  merge_lora cli_args && negb (is_None (cfg_get cfg "adapter")) = false →
  prepare_ds_only cli_args = false →
  debug cli_args || truthy (cfg_get cfg "debug") = false →
  train w cfg cli_args
    = ([LoadTokenizer; LoadModel true; DoInference (prompter cli_args)], Ret).
Proof.
  intros Hi Hm Hp Hd.
  unfold train, run_to_fit, preamble, branches, lower_branches.
  rewrite Hi, Hm, Hp, Hd, !orb_true_r. by msimpl.
Qed.

Lemma inference_mode_run_witness :
  train world0 cfg1
    {| debug := false; inference := true; merge_lora := false;
       prepare_ds_only := false; prompter := Some "AlpacaPrompter"; shard := true |}
  = ([LoadTokenizer; LoadModel true; DoInference (Some "AlpacaPrompter")], Ret).
Proof. apply inference_mode_run; vm_compute; reflexivity. Defined.

Lemma merge_branch_events cfg safe :
  Forall (λ e, is_non_training_event e = true) (merge_branch cfg safe).1.
Proof.
  unfold merge_branch. msimpl.
  destruct (py_eq_int (cfg_get cfg "local_rank") 0); msimpl; [|by repeat constructor].
  destruct (cfg_get cfg "output_dir"); msimpl; by repeat constructor.
Qed.

Lemma branches_events cfg cli_args :
  Forall (λ e, is_non_training_event e = true) (branches cfg cli_args).1.
Proof.
  unfold branches, lower_branches. apply bind_Forall.
  { apply when_Forall. intros _. apply merge_branch_events. }
  intros _ _. apply bind_Forall.
  { apply when_Forall. intros _. by repeat constructor. }
  intros _ _. apply when_Forall. intros _. by repeat constructor.
Qed.

(** Without the dataset locals the train branch makes no call and does not
    get to [trainer.train]. *)
Lemma train_setup_unbound w cfg :
  (train_setup w cfg None).1 = [] ∧ ∀ c, (train_setup w cfg None).2 ≠ Val c.
Proof.
  unfold train_setup. destruct (auto_resume_inv w cfg) as (Ht & _ & _).
  destruct (auto_resume w cfg) as [ta [c| |e]]; cbn [fst] in Ht; subst ta; by msimpl.
Qed.

(** X12. With any of [shard], [merge_lora] and [inference] set, a run never
    prepares the dataset, never sets up the trainer and never trains,
    whatever the configuration and the other flags: all it can do is load
    the tokenizer and the model, merge, run inference and save. *)
Theorem dataset_free_flags_never_train (w : World) (cfg : DictDefault)
    (cli_args : TrainerCliArgs) :
  shard cli_args || merge_lora cli_args || inference cli_args = true →
  Forall (λ e, is_non_training_event e = true) (train w cfg cli_args).1.
Proof.
  intros Hflags.
  assert (Hpre : Forall (λ e, is_non_training_event e = true)
                   (preamble w cfg cli_args).1).
  { unfold preamble, check_labels. rewrite Hflags. msimpl.
    destruct (debug cli_args || truthy (cfg_get cfg "debug")); msimpl;
      [by repeat constructor|].
    destruct (prepare_ds_only cli_args); msimpl; by repeat constructor. }
  assert (Hds : ∀ ds, (preamble w cfg cli_args).2 = Val ds → ds = None).
  { intros ds Hv. destruct (preamble w cfg cli_args) as [t r] eqn:Hp.
    cbn in Hv. subst r. apply preamble_Val in Hp as [_ ->]. by rewrite Hflags. }
  destruct (train_setup_unbound w cfg) as [Hst Hsr].
  unfold train, run_to_fit. rewrite bind_assoc.
  apply bind_Forall; [done|]. intros ds Hv. rewrite (Hds ds Hv).
  rewrite bind_assoc. apply bind_Forall; [apply branches_events|]. intros _ _.
  destruct (train_setup w cfg None) as [ts [c| |e]]; cbn [fst snd] in Hst, Hsr;
    subst ts; msimpl; [by destruct (Hsr c)|constructor..].
Qed.

Lemma dataset_free_flags_never_train_witness :
  Forall (λ e, is_non_training_event e = true)
    (train world0 cfg0
       {| debug := false; inference := false; merge_lora := true;
          prepare_ds_only := false; prompter := None; shard := false |}).1.
Proof. apply dataset_free_flags_never_train. reflexivity. Defined.

(** X21. With [merge_lora] as the only flag and no adapter configured,
    the run loads tokenizer and model and then raises: the train branch is
    entered without its dataset and [trainer.train] is never called. *)
Theorem merge_flag_alone_raises (w : World) (cfg : DictDefault)
    (cli_args : TrainerCliArgs) :
  merge_lora cli_args = true →
  is_None (cfg_get cfg "adapter") = true →
  inference cli_args = false → shard cli_args = false →
  prepare_ds_only cli_args = false →
  debug cli_args || truthy (cfg_get cfg "debug") = false →
  ∃ e, train w cfg cli_args = ([LoadTokenizer; LoadModel false], Exc e).
Proof. apply merge_flag_alone_never_trains. Qed.

Lemma merge_flag_alone_raises_witness :
  ∃ e, train world0 cfg0
         {| debug := false; inference := false; merge_lora := true;
            prepare_ds_only := false; prompter := None; shard := false |}
       = ([LoadTokenizer; LoadModel false], Exc e).
Proof. apply merge_flag_alone_raises; vm_compute; reflexivity. Defined.

(** ** train: one serialisation of the model at most *)

Lemma model_saves_app t1 t2 :
  model_saves (t1 ++ t2) = (model_saves t1 + model_saves t2)%nat.
Proof. unfold model_saves. by rewrite List.filter_app, length_app. Qed.

Lemma model_saves_none t :
  Forall (λ e, is_model_save e = false) t → model_saves t = 0%nat.
Proof.
  unfold model_saves. induction 1 as [|e t He _ IH]; [done|].
  cbn. by rewrite He.
Qed.

Lemma preamble_saves_nothing w cfg cli_args :
  model_saves (preamble w cfg cli_args).1 = 0%nat.
Proof.
  apply model_saves_none.
  eapply Forall_impl; [apply preamble_events|]. by intros [].
Qed.

Lemma branches_save_once cfg cli_args :
  (model_saves (branches cfg cli_args).1 ≤ 1)%nat.
Proof.
  unfold branches, lower_branches, merge_branch.
  destruct (merge_lora cli_args && negb (is_None (cfg_get cfg "adapter"))); msimpl.
  - destruct (py_eq_int (cfg_get cfg "local_rank") 0); msimpl; [|cbn; lia].
    destruct (cfg_get cfg "output_dir"); msimpl; cbn; lia.
  - destruct (inference cli_args); msimpl; [cbn; lia|].
    destruct (shard cli_args); msimpl; cbn; lia.
Qed.

Lemma train_setup_saves_nothing w cfg ds :
  model_saves (train_setup w cfg ds).1 = 0%nat.
Proof.
  apply model_saves_none. unfold train_setup.
  destruct (auto_resume_inv w cfg) as (Ht & _ & _).
  apply bind_Forall; [rewrite Ht; constructor|]. intros c _.
  apply bind_Forall; [destruct ds; constructor|]. intros [[tr ev] n] _.
  apply bind_Forall; [by repeat constructor|]. intros _ _.
  apply bind_Forall; [by repeat constructor|]. intros _ _.
  apply bind_Forall; [apply when_Forall; by repeat constructor|]. intros _ _.
  apply bind_Forall; [apply when_Forall; by repeat constructor|]. intros _ _.
  apply bind_Forall; [apply when_Forall; by repeat constructor|]. intros _ _.
  apply bind_Forall; [destruct (cfg_get c "output_dir"); constructor|]. intros d _.
  apply bind_Forall; [apply when_Forall; by repeat constructor|]. intros _ _.
  apply bind_Forall; [by repeat constructor|]. intros _ _. constructor.
Qed.

Lemma finalize_saves_once cfg safe :
  (model_saves (finalize cfg safe).1 ≤ 1)%nat.
Proof.
  unfold finalize, final_save.
  destruct (truthy (cfg_get cfg "relora_steps")); msimpl;
    [destruct (plain_lora cfg); msimpl; [|cbn; lia]|];
    (destruct (truthy (cfg_get cfg "fsdp")); msimpl; [cbn; lia|]);
    (destruct (py_eq_int (cfg_get cfg "local_rank") 0); msimpl; [|cbn; lia]);
    destruct (truthy (cfg_get cfg "flash_optimum")); msimpl; cbn; lia.
Qed.

(** X13. Whatever the flags, the configuration and the environment, a run
    that is not interrupted serialises the model at most once. *)
Theorem train_saves_model_at_most_once (w : World) (cfg : DictDefault)
    (cli_args : TrainerCliArgs) :
  (model_saves (train w cfg cli_args).1 ≤ 1)%nat.
Proof.
  unfold train, run_to_fit. rewrite bind_assoc.
  pose proof (preamble_saves_nothing w cfg cli_args) as Hpre.
  destruct (preamble w cfg cli_args) as [t1 [ds| |e]]; cbn [fst] in Hpre; msimpl;
    [|lia..].
  rewrite model_saves_app, Hpre. cbn [Nat.add].
  rewrite bind_assoc.
  pose proof (branches_save_once cfg cli_args) as Hbr.
  destruct (branches cfg cli_args) as [tb [[]| |e]] eqn:Hb; cbn [fst] in Hbr; msimpl;
    [|lia..].
  apply branches_Val in Hb as (-> & _). cbn [app].
  rewrite bind_assoc.
  pose proof (train_setup_saves_nothing w cfg ds) as Hset.
  destruct (train_setup w cfg ds) as [ts [c| |e]]; cbn [fst] in Hset; msimpl;
    [|lia..].
  rewrite model_saves_app, Hset. cbn [Nat.add]. unfold fit. msimpl.
  pose proof (finalize_saves_once c (safe_serialization cfg)) as Hfin.
  destruct (finalize c (safe_serialization cfg)) as [tf r]. cbn [fst snd] in *.
  by destruct r.
Qed.

(** ** train: the calls of the train mode, in order *)

(** X14. In train mode (no mode flag, no label inspection), once the resume
    step has succeeded and the output directory is a string, the calls are,
    in this order: tokenizer, dataset, model, trainer set-up, cache switched
    off, compilation when available, the adapter configuration saved when
    there is one, the SIGINT handler on local rank 0, the output directory
    created when missing, the tokenizer saved, [trainer.train], and then the
    finalizer. *)
Theorem train_mode_call_order (w : World) (cfg cfg' : DictDefault)
    (cli_args : TrainerCliArgs) (d : string) :
  shard cli_args || merge_lora cli_args || inference cli_args = false →
  prepare_ds_only cli_args = false →
  debug cli_args || truthy (cfg_get cfg "debug") = false →
  auto_resume w cfg = ([], Val cfg') →
  cfg_get cfg "output_dir" = VStr d →
  train w cfg cli_args
    = ([LoadTokenizer; PrepareDataset; LoadModel false;
        SetupTrainer (prepared w).1.1 (prepared w).1.2 (prepared w).2;
        SetUseCache false]
         ++ (if torch_compiles w then [TorchCompile] else [])
         ++ (if peft_config w then [PeftConfigSavePretrained (VStr d)] else [])
         ++ (if py_eq_int (cfg_get cfg "local_rank") 0 then [SignalSIGINT] else [])
         ++ (if is_dir w d then [] else [MakeDirs d])
         ++ [TokenizerSavePretrained (VStr d);
             TrainerTrain (cfg_get cfg' "resume_from_checkpoint")
               (truthy (cfg_get cfg "flash_optimum"))]
         ++ (finalize cfg' (safe_serialization cfg)).1,
       (finalize cfg' (safe_serialization cfg)).2).
Proof.
  intros Hflags Hp Hd Hauto Hdir.
  assert (Hinf : inference cli_args = false)
    by (destruct (inference cli_args); [by rewrite orb_true_r in Hflags | done]).
  assert (Hsh : shard cli_args = false) by (by destruct (shard cli_args)).
  assert (Hm : merge_lora cli_args = false)
    by (destruct (merge_lora cli_args); [by rewrite Hsh in Hflags | done]).
  destruct (auto_resume_inv w cfg) as (_ & _ & Hsame).
  rewrite Hauto in Hsame. specialize (Hsame cfg' eq_refl).
  unfold train, run_to_fit, preamble, branches, lower_branches, train_setup, fit.
  rewrite Hflags, Hp, Hd, Hinf, Hsh, Hm, Hauto.
  destruct (prepared w) as [[tr ev] n]. msimpl.
  rewrite !Hsame by done. rewrite Hdir.
  destruct (torch_compiles w), (peft_config w),
    (py_eq_int (cfg_get cfg "local_rank") 0); msimpl;
    destruct (is_dir w d); msimpl;
    by rewrite (Hsame "flash_optimum").
Qed.

Lemma train_mode_call_order_witness :
  train world0 cfg0 default_cli_args
    = ([LoadTokenizer; PrepareDataset; LoadModel false;
        SetupTrainer rows3 [[7; 8]] 10; SetUseCache false; SignalSIGINT;
        TokenizerSavePretrained (VStr "out"); TrainerTrain VNone true]
         ++ (finalize cfg0 (safe_serialization cfg0)).1,
       (finalize cfg0 (safe_serialization cfg0)).2).
Proof.
  apply (train_mode_call_order world0 cfg0 cfg0 default_cli_args "out");
    vm_compute; reflexivity.
Defined.

(** ** Checkpoint discovery: ties and malformed names *)

Lemma last_insert_by_key x s :
  last (insert_by_key x s)
    = if forallb (λ y, y.1 <? x.1) s then Some x else last s.
Proof.
  induction s as [|y s IH]; [done|].
  cbn [insert_by_key forallb].
  destruct (x.1 <=? y.1) eqn:Hxy.
  - apply Z.leb_le in Hxy.
    assert (Hlt : (y.1 <? x.1) = false) by (apply Z.ltb_ge; lia).
    by rewrite Hlt.
  - apply Z.leb_gt in Hxy.
    assert (Hlt : (y.1 <? x.1) = true) by (apply Z.ltb_lt; lia).
    rewrite Hlt. cbn [andb].
    destruct (insert_by_key x s) as [|z s'] eqn:Hins.
    { destruct s; cbn in Hins; [done|]. by destruct (x.1 <=? p.1). }
    change (last (y :: z :: s')) with (last (z :: s')). rewrite IH.
    destruct (forallb (λ y0, y0.1 <? x.1) s) eqn:Hall; [done|].
    destruct s; [done|done].
Qed.

Lemma forallb_sort_by_key (f : Z * string → bool) l :
  forallb f (sort_by_key l) = forallb f l.
Proof.
  apply eq_true_iff_eq. rewrite !forallb_forall.
  split; intros H x Hx; apply H; apply list_elem_of_In;
    apply list_elem_of_In in Hx;
    [by rewrite sort_by_key_Permutation | by rewrite <- sort_by_key_Permutation].
Qed.

(** Sorting by key ends with the last of the elements of greatest key. *)
Lemma sort_by_key_last_greatest (before after : list (Z * string)) (x : Z * string) :
  Forall (λ y, y.1 ≤ x.1) before → Forall (λ y, y.1 < x.1) after →
  last (sort_by_key (before ++ x :: after)) = Some x.
Proof.
  intros Hb Ha. induction Hb as [|b before Hbx _ IH].
  - cbn [app sort_by_key foldr]. fold (sort_by_key after).
    rewrite last_insert_by_key, forallb_sort_by_key.
    assert (Hall : forallb (λ y, y.1 <? x.1) after = true).
    { apply forallb_forall. intros y Hy. apply Z.ltb_lt.
      rewrite Forall_forall in Ha. apply Ha. by apply list_elem_of_In. }
    by rewrite Hall.
  - cbn [app sort_by_key foldr]. fold (sort_by_key (before ++ x :: after)).
    rewrite last_insert_by_key, forallb_sort_by_key.
    assert (Hall : forallb (λ y, y.1 <? b.1) (before ++ x :: after) = false).
    { apply not_true_is_false. rewrite forallb_forall. intros H.
      specialize (H x). rewrite Z.ltb_lt in H.
      assert (x.1 < b.1); [|lia].
      apply H. apply in_or_app. right. by left. }
    by rewrite Hall.
Qed.

Lemma mapM_keyed (paths : list string) (keyed : list (Z * string)) :
  mapM (λ p, (λ k, (k, p)) <$> checkpoint_step p) paths = Some keyed →
  Forall2 (λ p x, checkpoint_step p = Some x.1 ∧ x.2 = p) paths keyed.
Proof.
  intros Hm. apply mapM_Some in Hm.
  eapply Forall2_impl; [exact Hm|]. cbn. intros p [k q] Hf.
  destruct (checkpoint_step p) as [k'|]; [|done].
  cbn in Hf. by injection Hf as <- <-.
Qed.

(** X15. Which entry the resume step takes, exactly, when the text after
    the last dash of every path the glob yields is a decimal integer (in
    ASCII, within the digit limit of [int()]): the last one, in the order
    of the glob, of those with the greatest numeric suffix. Entries with
    equal steps are thus resolved in favour of the later one. *)
Theorem auto_resume_takes_last_greatest (w : World) (cfg : DictDefault)
    (d p : string) (k : Z) (before after : list string) :
  is_None (cfg_get cfg "resume_from_checkpoint") = true →
  truthy (cfg_get cfg "auto_resume_from_checkpoints") = true →
  cfg_get cfg "output_dir" = VStr d →
  glob w d "checkpoint-*" = before ++ p :: after →
  Forall (λ q, int_exact (split_last "-" q) = true) (before ++ p :: after) →
  checkpoint_step p = Some k →
  Forall (λ q, ∃ kq, checkpoint_step q = Some kq ∧ kq ≤ k) before →
  Forall (λ q, ∃ kq, checkpoint_step q = Some kq ∧ kq < k) after →
  auto_resume w cfg = ([], Val (<["resume_from_checkpoint" := VStr p]> cfg)).
Proof.
  intros Hnone Hauto Hdir Hglob _ Hp Hb Ha.
  unfold auto_resume. rewrite Hnone, Hauto, Hdir. msimpl. rewrite Hglob.
  assert (Hlen : (0 <? len (before ++ p :: after)) = true).
  { apply Z.ltb_lt. unfold len. rewrite length_app. cbn. lia. }
  rewrite Hlen. unfold sorted_checkpoints.
  destruct (mapM _ (before ++ p :: after)) as [keyed|] eqn:Hm.
  2:{ exfalso. apply mapM_None in Hm. rewrite Exists_exists in Hm.
      destruct Hm as (q & Hq & Hnone').
      apply elem_of_app in Hq as [Hq|Hq].
      - rewrite Forall_forall in Hb. destruct (Hb q Hq) as (kq & Hkq & _).
        by rewrite Hkq in Hnone'.
      - apply elem_of_cons in Hq as [->|Hq]; [by rewrite Hp in Hnone'|].
        rewrite Forall_forall in Ha. destruct (Ha q Hq) as (kq & Hkq & _).
        by rewrite Hkq in Hnone'. }
  apply mapM_keyed in Hm.
  apply Forall2_app_inv_l in Hm as (kb & krest & Hkb & Hkrest & ->).
  apply Forall2_cons_inv_l in Hkrest as (x & ka & [Hx1 Hx2] & Hka & ->).
  rewrite Hp in Hx1. injection Hx1 as Hx1.
  assert (Hlast : last (sort_by_key (kb ++ x :: ka)) = Some x).
  { apply sort_by_key_last_greatest.
    - apply Forall_forall. intros y Hy.
      apply list_elem_of_lookup in Hy as [i Hi].
      destruct (Forall2_lookup_r _ _ _ _ _ Hkb Hi) as (q & Hq & Hs & _).
      rewrite Forall_forall in Hb.
      destruct (Hb q) as (kq & Hkq & Hle); [by eapply list_elem_of_lookup_2|].
      rewrite Hkq in Hs. injection Hs as ->. lia.
    - apply Forall_forall. intros y Hy.
      apply list_elem_of_lookup in Hy as [i Hi].
      destruct (Forall2_lookup_r _ _ _ _ _ Hka Hi) as (q & Hq & Hs & _).
      rewrite Forall_forall in Ha.
      destruct (Ha q) as (kq & Hkq & Hle); [by eapply list_elem_of_lookup_2|].
      rewrite Hkq in Hs. injection Hs as ->. lia. }
  msimpl. rewrite fmap_last, Hlast. cbn. by rewrite Hx2.
Qed.

Lemma auto_resume_takes_last_greatest_witness :
  auto_resume world0 cfg1
    = ([], Val (<["resume_from_checkpoint" := VStr "out/checkpoint-20"]> cfg1)).
Proof.
  apply (auto_resume_takes_last_greatest world0 cfg1 "out" "out/checkpoint-20" 20
           ["out/checkpoint-5"] ["out/checkpoint-3"]);
    try (vm_compute; reflexivity).
  - repeat constructor.
  - repeat constructor. exists 5. by vm_compute.
  - repeat constructor. exists 3. by vm_compute.
Defined.

(** X16. One [checkpoint-*] entry whose part after the last dash is ASCII
    text that is no integer is enough for the resume step to raise
    [ValueError], whatever the other entries are: nothing is selected and
    training does not start. *)
Theorem auto_resume_rejects_malformed_entry (w : World) (cfg : DictDefault)
    (d p : string) (ds : option (dataset * dataset * Z)) :
  is_None (cfg_get cfg "resume_from_checkpoint") = true →
  truthy (cfg_get cfg "auto_resume_from_checkpoints") = true →
  cfg_get cfg "output_dir" = VStr d →
  p ∈ glob w d "checkpoint-*" →
  int_exact (split_last "-" p) = true →
  checkpoint_step p = None →
  auto_resume w cfg = ([], Exc (ValueError "invalid literal for int() with base 10"))
  ∧ train_setup w cfg ds
      = ([], Exc (ValueError "invalid literal for int() with base 10")).
Proof.
  intros Hnone Hauto Hdir Hin _ Hp.
  assert (Hres : auto_resume w cfg
            = ([], Exc (ValueError "invalid literal for int() with base 10"))).
  { unfold auto_resume. rewrite Hnone, Hauto, Hdir. msimpl.
    assert (Hlen : (0 <? len (glob w d "checkpoint-*")) = true).
    { apply Z.ltb_lt. unfold len.
      destruct (glob w d "checkpoint-*"); [by apply elem_of_nil in Hin|cbn; lia]. }
    rewrite Hlen. unfold sorted_checkpoints.
    destruct (mapM _ (glob w d "checkpoint-*")) as [keyed|] eqn:Hm; [|done].
    exfalso. apply mapM_keyed in Hm.
    apply list_elem_of_lookup in Hin as [i Hi].
    destruct (Forall2_lookup_l _ _ _ _ _ Hm Hi) as (x & _ & Hs & _).
    by rewrite Hp in Hs. }
  split; [done|]. unfold train_setup. by rewrite Hres.
Qed.

Lemma auto_resume_rejects_malformed_entry_witness :
  auto_resume
    {| glob := λ _ _, ["out/checkpoint-7"; "out/checkpoint-final"];
       is_dir := is_dir world0; stdin := []; prepared := prepared world0;
       rand := rand world0; peft_config := false; torch_compiles := false |}
    cfg1
  = ([], Exc (ValueError "invalid literal for int() with base 10")).
Proof.
  eapply (auto_resume_rejects_malformed_entry _ cfg1 "out" "out/checkpoint-final" None);
    try (vm_compute; reflexivity).
  cbn. by repeat constructor.
Defined.

(** ** check_not_in *)

Lemma check_not_in_list_spec (list1 list2 : list string) :
  check_not_in list1 (InList list2) = true ↔ ∀ el, el ∈ list1 → el ∉ list2.
Proof.
  unfold check_not_in. rewrite negb_true_iff.
  rewrite <- not_true_iff_false, existsb_exists. split.
  - intros H el H1 H2. apply H. exists el. split; [by apply list_elem_of_In|].
    cbn. by apply bool_decide_eq_true_2.
  - intros H (el & H1 & H2). cbn in H2. apply bool_decide_eq_true_1 in H2.
    apply (H el); [by apply list_elem_of_In|done].
Qed.

(** X17. On two lists [check_not_in] says whether they are disjoint, so
    the order of its arguments does not matter; on a dictionary it tests
    the keys only. *)
Theorem check_not_in_disjoint (list1 list2 : list string) (d : DictDefault) :
  (check_not_in list1 (InList list2) = true ↔ ∀ el, el ∈ list1 → el ∉ list2)
  ∧ check_not_in list1 (InList list2) = check_not_in list2 (InList list1)
  ∧ (check_not_in list1 (InDict d) = true ↔ ∀ el, el ∈ list1 → d !! el = None).
Proof.
  split; [apply check_not_in_list_spec|]. split.
  - apply eq_true_iff_eq. rewrite !check_not_in_list_spec. naive_solver.
  - unfold check_not_in. rewrite negb_true_iff.
    rewrite <- not_true_iff_false, existsb_exists. split.
    + intros H el H1. apply eq_None_not_Some. intros Hs. apply H.
      exists el. split; [by apply list_elem_of_In|].
      cbn. unfold cfg_has. by apply bool_decide_eq_true_2.
    + intros H (el & H1 & H2). cbn in H2. unfold cfg_has in H2.
      apply bool_decide_eq_true_1 in H2. apply list_elem_of_In in H1.
      rewrite (H el H1) in H2. by destruct H2.
Qed.

(** ** load_cfg: the llama flag *)

(** X18. Each of the first three signals is enough, and none of them lets a
    later operand be evaluated: a model configuration of type llama gives
    [True] whatever the configuration holds; otherwise a truthy
    [is_llama_derived_model] is kept as it is; otherwise a [base_model]
    string that contains "llama" gives [True]. *)
Theorem llama_signals_suffice (model_type : option pyval) (cfg : DictDefault) :
  (config_says_llama model_type = true →
     derive_llama model_type cfg = inr (VBool true))
  ∧ (config_says_llama model_type = false →
     truthy (cfg_get cfg "is_llama_derived_model") = true →
     derive_llama model_type cfg = inr (cfg_get cfg "is_llama_derived_model"))
  ∧ (∀ s, cfg_get cfg "base_model" = VStr s →
     contains_substring "llama" s = true →
     ∃ v, derive_llama model_type cfg = inr v ∧ truthy v = true).
Proof.
  unfold derive_llama. repeat split.
  - by intros ->.
  - by intros -> ->.
  - intros s Hs Hc.
    destruct (config_says_llama model_type); [by eexists|].
    destruct (truthy (cfg_get cfg "is_llama_derived_model")) eqn:Hf; [by eexists|].
    rewrite Hs. cbn [llama_in]. rewrite Hc. by eexists.
Qed.

Lemma llama_signals_suffice_witness :
  ∃ v, derive_llama None {[ "base_model" := VStr "huggyllama/llama-7b" ]} = inr v
       ∧ truthy v = true.
Proof.
  eapply (llama_signals_suffice None {[ "base_model" := VStr "huggyllama/llama-7b" ]});
    vm_compute; reflexivity.
Defined.

(** X19. The derived flag is truthy only if one of the four signals holds:
    the model configuration is of type llama, the configured flag is
    truthy, "llama" occurs in [base_model], or it occurs in the lower-cased
    [model_type]. *)
Theorem llama_flag_needs_signal (model_type : option pyval) (cfg : DictDefault)
    (v : pyval) :
  derive_llama model_type cfg = inr v → truthy v = true →
  config_says_llama model_type = true
  ∨ truthy (cfg_get cfg "is_llama_derived_model") = true
  ∨ llama_in (cfg_get cfg "base_model") = inr true
  ∨ ∃ s, cfg_get cfg "model_type" = VStr s
         ∧ contains_substring "llama" (lower s) = true.
Proof.
  unfold derive_llama. intros Hd Hv.
  destruct (config_says_llama model_type); [by left|].
  destruct (truthy (cfg_get cfg "is_llama_derived_model")); [by right; left|].
  destruct (llama_in (cfg_get cfg "base_model")) as [e|[|]]; [done|by right; right; left|].
  right; right; right. unfold model_type_says_llama in Hd.
  destruct (truthy (cfg_get cfg "model_type")) eqn:Ht.
  - destruct (cfg_get cfg "model_type") as [| | |s| |]; try done.
    injection Hd as <-. by exists s.
  - injection Hd as <-. by rewrite Ht in Hv.
Qed.

Lemma llama_flag_needs_signal_witness :
  config_says_llama None = true
  ∨ truthy (cfg_get {[ "base_model" := VStr "gpt2"; "model_type" := VStr "LlamaForCausalLM" ]}
              "is_llama_derived_model") = true
  ∨ llama_in (cfg_get {[ "base_model" := VStr "gpt2"; "model_type" := VStr "LlamaForCausalLM" ]}
                "base_model") = inr true
  ∨ ∃ s, cfg_get {[ "base_model" := VStr "gpt2"; "model_type" := VStr "LlamaForCausalLM" ]}
           "model_type" = VStr s
         ∧ contains_substring "llama" (lower s) = true.
Proof.
  eapply (llama_flag_needs_signal None _ (VBool true)); vm_compute; reflexivity.
Defined.

(** X20. When neither the model configuration nor the configured flag
    says llama, a [base_model] that is missing, or is a number or a
    boolean, makes the derivation raise [TypeError]: the configuration is
    not returned. *)
Theorem llama_needs_base_model (model_type : option pyval) (cfg : DictDefault) :
  config_says_llama model_type = false →
  truthy (cfg_get cfg "is_llama_derived_model") = false →
  llama_in (cfg_get cfg "base_model") = inl NotIterable →
  set_llama_flag model_type cfg = inl NotIterable.
Proof.
  intros H1 H2 H3. unfold set_llama_flag, derive_llama. by rewrite H1, H2, H3.
Qed.

Lemma llama_needs_base_model_witness :
  set_llama_flag (Some (VStr "gpt_neox")) {[ "model_type" := VStr "LlamaForCausalLM" ]}
    = inl NotIterable.
Proof. apply llama_needs_base_model; vm_compute; reflexivity. Defined.

(** ** do_inference *)

Lemma inference_loop_blank build busy blank rest :
  read_instruction blank = "" →
  inference_loop build (busy ++ blank :: rest) = inference_loop build busy.
Proof.
  intros Hb. induction busy as [|lines busy IH]; cbn [app inference_loop].
  - by rewrite Hb.
  - by rewrite IH.
Qed.

Lemma generations_app t1 t2 :
  generations (t1 ++ t2) = (generations t1 + generations t2)%nat.
Proof. unfold generations. by rewrite List.filter_app, length_app. Qed.

Lemma inference_loop_generations build busy :
  Forall (λ lines, read_instruction lines ≠ "") busy →
  generations (inference_loop build busy) = length busy.
Proof.
  induction 1 as [|lines busy Hl _ IH]; [done|].
  cbn [inference_loop]. apply String.eqb_neq in Hl. rewrite Hl.
  change (generations (?a :: ?b :: ?t)) with (generations t).
  rewrite generations_app, IH. done.
Qed.

Lemma add_default_tokens_generations cfg tokens :
  generations (add_default_tokens cfg tokens).1 = 0%nat.
Proof.
  induction tokens as [|[t s] tokens IH]; [done|].
  cbn [add_default_tokens].
  destruct (if truthy (cfg_get cfg "special_tokens")
            then py_str_in t (cfg_get cfg "special_tokens") else Some false)
    as [[]|]; cbn [fst]; [done| |done].
  by rewrite generations_app, IH.
Qed.

(** X22. The inference loop runs one generation per read that yields
    text, and stops at the first read that yields none: what the operator
    would enter after it is never read, and no generation follows. *)
Theorem inference_stops_at_empty_read (term : Terminal) (cfg : DictDefault)
    (prompter : option string) (busy rest : list (list string)) (blank : list string) :
  sessions term = busy ++ blank :: rest →
  Forall (λ lines, read_instruction lines ≠ "") busy →
  read_instruction blank = "" →
  do_inference term cfg prompter
    = do_inference {| sessions := busy; prompters := prompters term |} cfg prompter
  ∧ ((do_inference term cfg prompter).2 = None →
     generations (do_inference term cfg prompter).1 = length busy).
Proof.
  intros Hs Hbusy Hblank.
  assert (Hloop : ∀ build, inference_loop build (sessions term) = inference_loop build busy).
  { intros build. rewrite Hs. by apply inference_loop_blank. }
  pose proof (add_default_tokens_generations cfg default_tokens) as Htok.
  unfold do_inference. cbn [sessions prompters].
  destruct (add_default_tokens cfg default_tokens) as [tt [e|]]; cbn [fst snd] in *;
    [done|].
  destruct (effective_prompter prompter) as [name|].
  - destruct (prompters term name) as [build|]; [|done].
    rewrite Hloop. split; [done|]. intros _. cbn [fst].
    rewrite !generations_app, Htok, inference_loop_generations by done.
    by destruct (truthy (cfg_get cfg "landmark_attention")).
  - rewrite Hloop. split; [done|]. intros _. cbn [fst].
    rewrite !generations_app, Htok, inference_loop_generations by done.
    by destruct (truthy (cfg_get cfg "landmark_attention")).
Qed.

Lemma inference_stops_at_empty_read_witness :
  do_inference
    {| sessions := [["Hello "; "there"]; []; ["never read"]];
       prompters := λ _, None |} ∅ None
  = do_inference {| sessions := [["Hello "; "there"]]; prompters := λ _, None |} ∅ None.
Proof.
  eapply (inference_stops_at_empty_read _ ∅ None [["Hello "; "there"]]
            [["never read"]] []).
  - reflexivity.
  - repeat constructor. vm_compute. discriminate.
  - reflexivity.
Defined.

Lemma add_default_tokens_elem cfg d tokens calls token symbol :
  cfg_get cfg "special_tokens" = VDict d →
  add_default_tokens cfg tokens = (calls, None) →
  (AddSpecialTokens token symbol ∈ calls
   ↔ (token, symbol) ∈ tokens ∧ (d = [] ∨ existsb (λ kv, String.eqb kv.1 token) d = false)).
Proof.
  intros Hd. revert calls.
  induction tokens as [|[t s] tokens IH]; intros calls Hc.
  - injection Hc as <-. split; [by intros ?%elem_of_nil|by intros [?%elem_of_nil _]].
  - cbn [add_default_tokens] in Hc. rewrite Hd in Hc. cbn [truthy py_str_in] in Hc.
    destruct (add_default_tokens cfg tokens) as [rest [e|]] eqn:Hrest.
    { destruct d; cbn in Hc; [done|]. by destruct (existsb _ _). }
    specialize (IH rest eq_refl).
    assert (Hcalls : calls = (if (match d with [] => false | _ => true end)
                                  && existsb (λ kv, String.eqb kv.1 t) d
                              then [] else [AddSpecialTokens t s]) ++ rest).
    { destruct d as [|kv d']; cbn in Hc; [by injection Hc as <-|].
      cbn [andb]. destruct (existsb _ (kv :: d')); by injection Hc as <-. }
    rewrite Hcalls, elem_of_app, elem_of_cons, IH. clear Hc Hcalls IH Hrest.
    split.
    + intros [Hin|[Hin Hk]]; [|by auto].
      destruct d as [|kv d']; cbn [andb] in Hin.
      * apply list_elem_of_singleton in Hin. injection Hin as -> ->. auto.
      * destruct (existsb _ (kv :: d')) eqn:He; [by apply elem_of_nil in Hin|].
        apply list_elem_of_singleton in Hin. injection Hin as -> ->. auto.
    + intros [[Heq|Hin] Hk]; [|by auto]. injection Heq as -> ->. left.
      destruct Hk as [->|Hk]; [by apply list_elem_of_singleton|].
      rewrite Hk, andb_false_r. by apply list_elem_of_singleton.
Qed.

(** X23. With [special_tokens] a dictionary, the default tokens added to
    the tokenizer are exactly those of unk_token, bos_token and eos_token
    that are not among its keys; a token the configuration specifies is
    never overwritten by its default. *)
Theorem default_tokens_fill_gaps (term : Terminal) (cfg : DictDefault)
    (prompter : option string) (d : list (string * pyval)) (token symbol : string) :
  cfg_get cfg "special_tokens" = VDict d →
  (AddSpecialTokens token symbol ∈ (do_inference term cfg prompter).1
   ↔ (token, symbol) ∈ default_tokens
     ∧ (d = [] ∨ existsb (λ kv, String.eqb kv.1 token) d = false)).
Proof.
  intros Hd.
  destruct (add_default_tokens cfg default_tokens) as [calls [e|]] eqn:Htok.
  { exfalso. unfold default_tokens in Htok. cbn [add_default_tokens] in Htok.
    rewrite Hd in Htok. cbn [truthy py_str_in] in Htok.
    destruct d; cbn in Htok; [done|].
    by repeat (destruct (existsb _ _) in Htok). }
  rewrite <- (add_default_tokens_elem cfg d default_tokens calls token symbol Hd Htok).
  unfold do_inference. rewrite Htok. cbn [fst snd].
  assert (Hloop : ∀ build reads, AddSpecialTokens token symbol ∉ inference_loop build reads).
  { intros build reads. induction reads as [|lines reads IH]; cbn [inference_loop].
    - set_solver.
    - destruct (String.eqb _ ""); set_solver. }
  destruct (effective_prompter prompter) as [name|];
    [destruct (prompters term name) as [build|]|]; cbn [fst];
    rewrite ?elem_of_app;
    destruct (truthy (cfg_get cfg "landmark_attention"));
    specialize (Hloop); set_solver.
Qed.

Lemma default_tokens_fill_gaps_witness :
  AddSpecialTokens "unk_token" "<unk>"
    ∈ (do_inference {| sessions := []; prompters := λ _, None |}
         {[ "special_tokens" := VDict [("bos_token", VStr "<s>")] ]} None).1
  ↔ ("unk_token", "<unk>") ∈ default_tokens
    ∧ ([("bos_token", VStr "<s>")] = []
       ∨ existsb (λ kv, String.eqb kv.1 "unk_token") [("bos_token", VStr "<s>")] = false).
Proof. apply default_tokens_fill_gaps. vm_compute. reflexivity. Defined.

(** X24. A prompter name the prompters module does not define makes
    [do_inference] raise [AttributeError] right after the default tokens:
    the model is not moved to the device, nothing is read and nothing is
    generated. *)
Theorem unknown_prompter_raises (term : Terminal) (cfg : DictDefault)
    (name : string) (calls : list icall) :
  effective_prompter (Some name) = Some name →
  prompters term name = None →
  add_default_tokens cfg default_tokens = (calls, None) →
  do_inference term cfg (Some name)
    = (calls ++ [GetPrompter name], Some (NoSuchPrompter name)).
Proof.
  intros He Hp Ht. unfold do_inference. by rewrite Ht, He, Hp.
Qed.

Lemma unknown_prompter_raises_witness :
  do_inference {| sessions := [["Hi"]]; prompters := λ _, None |} ∅ (Some "Alpaca")
  = ([AddSpecialTokens "unk_token" "<unk>"; AddSpecialTokens "bos_token" "<s>";
      AddSpecialTokens "eos_token" "</s>"] ++ [GetPrompter "Alpaca"],
     Some (NoSuchPrompter "Alpaca")).
Proof. apply unknown_prompter_raises; reflexivity. Defined.

(** ** Numerals printed and read back *)

Lemma pretty_N_char_digit d :
  (d < 10)%N →
  is_digit (pretty_N_char d) = true ∧ digit_value (pretty_N_char d) = Z.of_N d.
Proof.
  intros Hd.
  assert (d = 0 ∨ d = 1 ∨ d = 2 ∨ d = 3 ∨ d = 4 ∨ d = 5 ∨ d = 6 ∨ d = 7
          ∨ d = 8 ∨ d = 9)%N as Hcases by lia.
  repeat (destruct Hcases as [->|Hcases]; [by vm_compute|]). subst. by vm_compute.
Qed.

Lemma parse_digits_pretty_go (x : N) : ∀ s b,
  (0 < x)%N →
  parse_digits 0 b (pretty_N_go x s) = parse_digits (Z.of_N x) true s.
Proof.
  induction (N.lt_wf_0 x) as [x _ IH]. intros s b Hx.
  rewrite pretty_N_go_step by done.
  destruct (pretty_N_char_digit (x `mod` 10)) as [Hdig Hval]; [by apply N.mod_lt|].
  assert (Hx10 : Z.of_N x = 10 * Z.of_N (x `div` 10) + Z.of_N (x `mod` 10)).
  { rewrite (N.div_mod x 10) at 1 by done. lia. }
  destruct (decide (x `div` 10 = 0)%N) as [Hz|Hnz].
  - rewrite Hz, pretty_N_go_0. cbn [parse_digits]. rewrite Hdig, Hval.
    rewrite Hx10, Hz. done.
  - assert (Hlt : (x `div` 10 < x)%N) by (apply N.div_lt; lia).
    assert (Hpos : (0 < x `div` 10)%N) by (by apply N.neq_0_lt_0).
    rewrite (IH _ Hlt _ _ Hpos).
    cbn [parse_digits]. rewrite Hdig, Hval. by rewrite Hx10.
Qed.

Lemma all_digits_pretty_go (x : N) : ∀ s,
  all_digits s = true → all_digits (pretty_N_go x s) = true.
Proof.
  induction (N.lt_wf_0 x) as [x _ IH]. intros s Hs.
  destruct (decide (x = 0)%N) as [->|Hx]; [by rewrite pretty_N_go_0|].
  rewrite pretty_N_go_step by lia. apply IH; [apply N.div_lt; lia|].
  cbn [all_digits].
  destruct (pretty_N_char_digit (x `mod` 10)) as [-> _]; [by apply N.mod_lt|done].
Qed.

Lemma pretty_go_nonempty (x : N) s : (0 < x)%N → pretty_N_go x s ≠ "".
Proof.
  revert s. induction (N.lt_wf_0 x) as [x _ IH]. intros s Hx.
  rewrite pretty_N_go_step by done.
  destruct (decide (x `div` 10 = 0)%N) as [->|Hnz]; [by rewrite pretty_N_go_0|].
  apply IH; [apply N.div_lt; lia | by apply N.neq_0_lt_0].
Qed.

Lemma digit_not_space c : is_digit c = true → is_c_space c = false.
Proof.
  unfold is_digit, is_c_space. intros H.
  apply andb_prop in H as [H1 H2]. apply Nat.leb_le in H1, H2.
  apply orb_false_intro; [apply andb_false_intro2; apply Nat.leb_gt; lia|].
  apply Nat.eqb_neq. lia.
Qed.

Lemma lstrip_digits s : all_digits s = true → int_lstrip s = s.
Proof.
  destruct s as [|c s]; [done|]. cbn. intros [Hc _]%andb_prop.
  by rewrite (digit_not_space c Hc).
Qed.

Lemma string_rev_onto_app s a b :
  string_rev_onto (string_rev_onto s a) b = string_rev_onto a (s +:+ b).
Proof.
  revert a b. induction s as [|c s IH]; intros a b; cbn; [done|].
  by rewrite IH.
Qed.

Lemma string_app_empty_r s : s +:+ "" = s.
Proof.
  induction s as [|c s IH]; [done|].
  change (String c (s +:+ "") = String c s). by rewrite IH.
Qed.

Lemma string_rev_involutive s : string_rev (string_rev s) = s.
Proof.
  unfold string_rev. rewrite string_rev_onto_app. cbn. apply string_app_empty_r.
Qed.

Lemma all_digits_rev_onto s a :
  all_digits (string_rev_onto s a) = all_digits s && all_digits a.
Proof.
  revert a. induction s as [|c s IH]; intros a; cbn; [done|].
  rewrite IH. cbn. by destruct (is_digit c), (all_digits s), (all_digits a).
Qed.

Lemma strip_digits s : all_digits s = true → int_strip s = s.
Proof.
  intros Hs. unfold int_strip. rewrite (lstrip_digits s Hs).
  rewrite lstrip_digits, string_rev_involutive; [done|].
  unfold string_rev. by rewrite all_digits_rev_onto, Hs.
Qed.

Lemma py_int_digits s :
  all_digits s = true → py_int s = parse_digits 0 false s.
Proof.
  intros Hs. unfold py_int. rewrite (strip_digits s Hs).
  destruct s as [|c s']; [done|].
  cbn in Hs. apply andb_prop in Hs as [Hc _].
  destruct c as [[] [] [] [] [] [] [] []]; try done; by vm_compute in Hc.
Qed.

(** The decimal numeral of a natural number reads back as that number. *)
Lemma py_int_pretty (n : Z) : 0 ≤ n → py_int (pretty n) = Some n.
Proof.
  intros Hn. destruct n as [|p|p]; [done| |lia].
  change (pretty (Z.pos p)) with (pretty_N_go (N.pos p) "").
  rewrite py_int_digits by (by apply all_digits_pretty_go).
  rewrite parse_digits_pretty_go by lia. done.
Qed.

Lemma print_options_shows files : ∀ idx (i : nat) file,
  files !! i = Some file →
  Print (pretty (idx + Z.of_nat i + 1) +:+ ". " +:+ file) ∈ (print_options idx files).1.
Proof.
  induction files as [|f files IH]; intros idx i file Hi; [done|].
  cbn [print_options]. rewrite bind_emit. cbn [fst].
  destruct i as [|i].
  - injection Hi as ->. rewrite Z.add_0_r. by left.
  - right. cbn in Hi.
    replace (idx + Z.of_nat (S i) + 1) with ((idx + 1) + Z.of_nat i + 1) by lia.
    by apply IH.
Qed.

(** X25. The menu round trip: when the directory holds two or more
    candidates, each is printed with its number, and answering with the
    number printed next to a candidate returns that candidate. *)
Theorem menu_number_selects_file (w : World) (path file : string) (i : nat)
    (rest : list string) :
  (2 ≤ length (glob w path "*.yml"))%nat →
  glob w path "*.yml" !! i = Some file →
  stdin w = pretty (Z.of_nat i + 1) :: rest →
  Print (pretty (Z.of_nat i + 1) +:+ ". " +:+ file) ∈ (choose_config w path).1
  ∧ (choose_config w path).2 = Val file.
Proof.
  intros Hlen Hi Hin. unfold choose_config. rewrite Hin.
  destruct (glob w path "*.yml") as [|f1 [|f2 files]] eqn:Hg; cbn [length] in Hlen;
    [lia..|].
  set (yaml_files := f1 :: f2 :: files) in *.
  assert (Hloop : choose_loop yaml_files (pretty (Z.of_nat i + 1) :: rest)
                  = ([choice_prompt], Val file)).
  { apply (choose_loop_first_valid _ _ _ (Z.of_nat i + 1)).
    - apply py_int_pretty. lia.
    - by replace (Z.to_nat (Z.of_nat i + 1 - 1)) with i by lia.
    - lia. }
  pose proof (print_options_shows yaml_files 0 i file Hi) as Hshown.
  pose proof (print_options_Val yaml_files 0) as Hval.
  destruct (print_options 0 yaml_files) as [shown r]. cbn in Hval, Hshown. subst r.
  rewrite bind_emit. cbn [fst snd]. erewrite bind_Val by reflexivity.
  rewrite Hloop. cbn [fst snd]. split; [|done].
  right. apply elem_of_app. by left.
Qed.

Lemma menu_number_selects_file_witness :
  Print (pretty (Z.of_nat 1 + 1) +:+ ". " +:+ "examples/b.yml")
    ∈ (choose_config
         {| glob := glob world0; is_dir := is_dir world0; stdin := ["2"];
            prepared := prepared world0; rand := rand world0;
            peft_config := false; torch_compiles := false |} "examples").1
  ∧ (choose_config
       {| glob := glob world0; is_dir := is_dir world0; stdin := ["2"];
          prepared := prepared world0; rand := rand world0;
          peft_config := false; torch_compiles := false |} "examples").2
    = Val "examples/b.yml".
Proof.
  apply (menu_number_selects_file _ "examples" "examples/b.yml" 1 []).
  - vm_compute. lia.
  - reflexivity.
  - reflexivity.
Defined.

Lemma contains_char_app_sep sep a b : contains_char sep (a +:+ String sep b) = true.
Proof.
  induction a as [|c a IH].
  - change (Ascii.eqb sep sep || contains_char sep b = true).
    by rewrite Ascii.eqb_refl.
  - change (Ascii.eqb sep c || contains_char sep (a +:+ String sep b) = true).
    rewrite IH. apply orb_true_r.
Qed.

Lemma split_last_app sep a b :
  contains_char sep b = false → split_last sep (a +:+ String sep b) = b.
Proof.
  intros Hb. induction a as [|c a IH].
  - change ((if contains_char sep b then split_last sep b
             else if Ascii.eqb sep sep then b else String sep b) = b).
    by rewrite Hb, Ascii.eqb_refl.
  - change ((if contains_char sep (a +:+ String sep b)
             then split_last sep (a +:+ String sep b)
             else if Ascii.eqb c sep then a +:+ String sep b
                  else String c (a +:+ String sep b)) = b).
    by rewrite contains_char_app_sep.
Qed.

Lemma digits_have_no_dash s : all_digits s = true → contains_char "-" s = false.
Proof.
  induction s as [|c s IH]; [done|]. cbn.
  intros [Hc Hs]%andb_prop. rewrite (IH Hs), orb_false_r.
  destruct c as [[] [] [] [] [] [] [] []]; try done; by vm_compute in Hc.
Qed.

Lemma string_app_assoc a b c : (a +:+ b) +:+ c = a +:+ (b +:+ c).
Proof.
  induction a as [|x a IH]; [done|].
  change (String x ((a +:+ b) +:+ c) = String x (a +:+ (b +:+ c))). by rewrite IH.
Qed.

(** X26. The checkpoint round trip: a directory named checkpoint-<n>, with
    [n] written in decimal, yields the step [n] as its sort key, whatever
    the output directory is called, dashes in its name included. *)
Theorem checkpoint_step_of_name (d : string) (n : Z) :
  0 ≤ n → checkpoint_step (path_join d ("checkpoint-" +:+ pretty n)) = Some n.
Proof.
  intros Hn. unfold checkpoint_step, path_join.
  assert (Hdig : all_digits (pretty n) = true).
  { destruct n as [|p|p]; [done| |lia].
    change (pretty (Z.pos p)) with (pretty_N_go (N.pos p) "").
    by apply all_digits_pretty_go. }
  replace (d +:+ "/" +:+ "checkpoint-" +:+ pretty n)
    with ((d +:+ "/checkpoint") +:+ String "-" (pretty n))
    by (by rewrite string_app_assoc).
  rewrite split_last_app by (by apply digits_have_no_dash).
  by apply py_int_pretty.
Qed.

Lemma checkpoint_step_of_name_witness :
  checkpoint_step (path_join "./lora-out" ("checkpoint-" +:+ pretty 1500)) = Some 1500.
Proof. apply checkpoint_step_of_name. lia. Defined.

Example normal_dir_examples :
  map normal_dir ["out"; "/data/lora-out"; "a/../b"; ""; "."; "./out"; "out/"; "/";
                  "//a"; "a//b"; "a/./b"]
  = [true; true; true; false; false; false; false; false; false; false; false].
Proof. vm_compute. reflexivity. Qed.

Example py_int_examples :
  map py_int [" 12 "; "+1_0"; "-007"; ""; "1__0"; "12a"; "+ 5"; "_1"; "1_"]
  = [Some 12; Some 10; Some (-7); None; None; None; None; None; None].
Proof. vm_compute. reflexivity. Qed.
